(** * Association metadata resolver and handle of [rel] (association.go)

    A shallow embedding of [association.go]: the resolver
    [extractAssociationData] with its process-wide cache, and the handle
    operations ([Document], [Collection], [IsZero], [ForeignValue], ...)
    over a small model of Go's [reflect] values.

    Go panics are modelled by the [Panic] constructor of [result]; the
    cache ([sync.Map]) and the memory the handle works on are threaded
    explicitly, one call after the other. What [association.go] calls but
    does not define ([fieldName], [extractDocumentData], [Persisted],
    [isDeepZero], [snaker.CamelToSnake], the type declarations [reflect]
    reads) is a member of the classes [Runtime] and [Records]; [indirect],
    [NewDocument] and [NewCollection] are modelled after the
    specification. *)

From Stdlib Require Import ZArith Ascii String.
From stdpp Require Import base option list strings gmap fin_maps.

Set Warnings "-register-all".

Local Open Scope string_scope.

(** ** Results of calls that may panic *)

Inductive result (A : Type) : Type :=
| Ok (a : A)
| Panic (msg : string).
Arguments Ok {A} a.
Arguments Panic {A} msg.

Definition is_ok {A} (r : result A) : bool :=
  match r with Ok _ => true | Panic _ => false end.

Definition is_panic {A} (r : result A) : bool := negb (is_ok r).

(** ** Static types ([reflect.Type])

    Defined struct types are identified by their name; their field lists
    live in the type declarations of the program (see [Runtime] below), so
    that mutually recursive record types (a user has many transactions, a
    transaction belongs to a user) can be described. *)

Inductive Kind : Type :=
| KInvalid | KBool | KInt | KString | KStruct | KPtr | KSlice.

Inductive basic : Type := BBool | BInt | BString.

Inductive rtype : Type :=
| TBasic (b : basic)
| TStruct (name : string)
| TPtr (elem : rtype)
| TSlice (elem : rtype).

#[global] Instance Kind_eq_dec : EqDecision Kind.
Proof. solve_decision. Defined.
#[global] Instance basic_eq_dec : EqDecision basic.
Proof. solve_decision. Defined.
#[global] Instance rtype_eq_dec : EqDecision rtype.
Proof. solve_decision. Defined.

(** [rt.Kind()] *)
Definition kindOf (t : rtype) : Kind :=
  match t with
  | TBasic BBool => KBool
  | TBasic BInt => KInt
  | TBasic BString => KString
  | TStruct _ => KStruct
  | TPtr _ => KPtr
  | TSlice _ => KSlice
  end.

(** [rt.Name()]: the name of a defined or predeclared type, empty for
    pointer and slice types. *)
Definition typeName (t : rtype) : string :=
  match t with
  | TBasic BBool => "bool"
  | TBasic BInt => "int"
  | TBasic BString => "string"
  | TStruct name => name
  | TPtr _ | TSlice _ => ""
  end.

(** [rt.Elem()], which panics on a type that has no element type. *)
Definition typeElem (t : rtype) : result rtype :=
  match t with
  | TPtr e | TSlice e => Ok e
  | _ => Panic "reflect: Elem of invalid type"
  end.

(** Encoding of types into a countable type, for use as map keys. *)
Fixpoint rtype_enc (t : rtype) : list bool * (nat + string) :=
  match t with
  | TBasic BBool => ([], inl 0)
  | TBasic BInt => ([], inl 1)
  | TBasic BString => ([], inl 2)
  | TStruct name => ([], inr name)
  | TPtr e => let '(w, b) := rtype_enc e in (true :: w, b)
  | TSlice e => let '(w, b) := rtype_enc e in (false :: w, b)
  end.

Fixpoint rtype_dec (w : list bool) (b : nat + string) : rtype :=
  match w with
  | [] =>
      match b with
      | inl 0 => TBasic BBool
      | inl 1 => TBasic BInt
      | inl _ => TBasic BString
      | inr name => TStruct name
      end
  | true :: w' => TPtr (rtype_dec w' b)
  | false :: w' => TSlice (rtype_dec w' b)
  end.

#[global] Instance rtype_countable : Countable rtype.
Proof.
  apply (inj_countable' rtype_enc (fun p => rtype_dec p.1 p.2)).
  intros t. induction t as [[]|name|e IH|e IH]; simpl; try reflexivity.
  - destruct (rtype_enc e) as [w b]; simpl in *. by rewrite IH.
  - destruct (rtype_enc e) as [w b]; simpl in *. by rewrite IH.
Defined.

(** ** Struct tags and struct fields *)

(** A [reflect.StructTag], already split into its [key:"value"] pairs, in
    the order they are written. *)
Definition StructTag : Type := list (string * string).

(** [tag.Get(key)]: the value of the first pair with that key, or the empty
    string. *)
Fixpoint tagGet (tag : StructTag) (key : string) : string :=
  match tag with
  | [] => ""
  | (k, v) :: rest => if bool_decide (k = key) then v else tagGet rest key
  end.

(** [reflect.StructField], with the members the resolver reads. *)
Record StructField : Type := mkStructField {
  sfName : string;
  sfType : rtype;
  sfTag : StructTag;
  sfIndex : list nat
}.

(** A field as it is declared in a struct type. *)
Record FieldDecl : Type := mkFieldDecl {
  fdName : string;
  fdType : rtype;
  fdTag : StructTag
}.

(** ** [strings.Split(s, ":")] *)

Definition colon : ascii := ":"%char.

(** The pieces of [s] between its colons; there is always at least one
    piece, so the empty string splits into one empty piece. *)
Fixpoint splitColon (s : string) : list string :=
  match s with
  | EmptyString => [""]
  | String c rest =>
      if bool_decide (c = colon)
      then "" :: splitColon rest
      else
        match splitColon rest with
        | piece :: pieces => String c piece :: pieces
        | [] => [String c ""]
        end
  end.

(** ** Association descriptors *)

Inductive AssociationType : Type :=
| BelongsTo
| HasOne
| HasMany
| ManyToMany.

#[global] Instance AssociationType_eq_dec : EqDecision AssociationType.
Proof. solve_decision. Defined.

Record associationKey : Type := mkKey {
  key_rt : rtype;
  key_index : nat
}.

#[global] Instance associationKey_eq_dec : EqDecision associationKey.
Proof. solve_decision. Defined.

#[global] Instance associationKey_countable : Countable associationKey.
Proof.
  apply (inj_countable' (fun k => (key_rt k, key_index k))
                        (fun p => mkKey p.1 p.2)).
  by intros [].
Defined.

Record associationData : Type := mkData {
  typ : AssociationType;
  targetIndex : list nat;
  referenceField : string;
  referenceIndex : nat;
  referenceThrough : string;
  foreignField : string;
  foreignIndex : nat;
  foreignThrough : string;
  through : string;
  autosave : bool
}.

(** Assignments to the members of a descriptor under construction. *)
Definition setTyp (t : AssociationType) (d : associationData) : associationData :=
  mkData t (targetIndex d) (referenceField d) (referenceIndex d)
         (referenceThrough d) (foreignField d) (foreignIndex d)
         (foreignThrough d) (through d) (autosave d).

Definition setReference (id : nat) (ref : string) (d : associationData) :
    associationData :=
  mkData (typ d) (targetIndex d) ref id
         (referenceThrough d) (foreignField d) (foreignIndex d)
         (foreignThrough d) (through d) (autosave d).

Definition setForeign (id : nat) (fk : string) (d : associationData) :
    associationData :=
  mkData (typ d) (targetIndex d) (referenceField d) (referenceIndex d)
         (referenceThrough d) fk id
         (foreignThrough d) (through d) (autosave d).

Definition setThrough (refThrough fkThrough thr : string) (d : associationData) :
    associationData :=
  mkData (typ d) (targetIndex d) (referenceField d) (referenceIndex d)
         refThrough (foreignField d) (foreignIndex d)
         fkThrough thr (autosave d).

(** The process-wide [associationCache]. *)
Abbreviation Cache := (gmap associationKey associationData).

(** The part of [documentData] the resolver reads: the index from column
    names to field positions. *)
Record documentData : Type := mkDocumentData {
  index : gmap string nat
}.

(** [getAssocField(tag, field)] *)
Definition getAssocField (tag : StructTag) (field : string) : string * string :=
  match splitColon (tagGet tag field) with
  | [f0; f1] => (f0, f1)
  | f0 :: _ => (f0, "")
  | [] => ("", "")
  end.

(** ** What the resolver takes from the rest of the program

    The struct declarations of the compiled program (what [reflect] reads),
    the name casing utility [snaker.CamelToSnake], the two functions of
    [document.go] the resolver calls, [fieldName] and
    [extractDocumentData], and the name of the package each struct type is
    declared in, which [reflect] prints before the name of the type. *)

Class Runtime : Type := mkRuntime {
  structFields : string -> list FieldDecl;
  CamelToSnake : string -> string;
  fieldName : StructField -> string;
  extractDocumentData : rtype -> bool -> documentData;
  typePkg : string -> string
}.

Section Resolver.
Context `{RT : Runtime}.

(** [rt.String()]: a struct type prints as its name qualified by its
    package ([rel.User]), a pointer as [*] and a slice as [[]] before what
    their element prints as ([*rel.User], [[]rel.User]). *)
Fixpoint typeString (t : rtype) : string :=
  match t with
  | TBasic BBool => "bool"
  | TBasic BInt => "int"
  | TBasic BString => "string"
  | TStruct name => typePkg name ++ "." ++ name
  | TPtr e => "*" ++ typeString e
  | TSlice e => "[]" ++ typeString e
  end.

(** [rt.Field(i)]: panics on a type that is not a struct, naming the type
    as [rt.String()] prints it, and on a position past the last field
    (positions are naturals: a negative [int] is out of bounds all the
    same). *)
Definition typeField (rt : rtype) (i : nat) : result StructField :=
  match rt with
  | TStruct name =>
      match structFields name !! i with
      | Some fd => Ok (mkStructField (fdName fd) (fdType fd) (fdTag fd) [i])
      | None => Panic "reflect: Field index out of bounds"
      end
  | _ => Panic ("reflect: Field of non-struct type " ++ typeString rt)
  end.

(** The loop [for ft.Kind() == reflect.Ptr || ft.Kind() == reflect.Slice]
    that strips pointers and slices off the field's type. *)
Fixpoint unwrapType (ft : rtype) : rtype :=
  match ft with
  | TPtr e | TSlice e => unwrapType e
  | _ => ft
  end.

(** The test [sf.Type.Kind() == reflect.Slice || (sf.Type.Kind() ==
    reflect.Ptr && sf.Type.Elem().Kind() == reflect.Slice)]. *)
Definition isSliceField (t : rtype) : bool :=
  bool_decide (kindOf t = KSlice)
  || (bool_decide (kindOf t = KPtr)
      && match typeElem t with
         | Ok e => bool_decide (kindOf e = KSlice)
         | Panic _ => false
         end).

(** [extractAssociationData(rt, index)], over the cache it reads and
    writes. A panic leaves the cache as it was. *)
Definition extractAssociationData (rt : rtype) (fieldIndex : nat)
    (associationCache : Cache) : result associationData * Cache :=
  let key := mkKey rt fieldIndex in
  match associationCache !! key with
  | Some val => (Ok val, associationCache)
  | None =>
      match typeField rt fieldIndex with
      | Panic msg => (Panic msg, associationCache)
      | Ok sf =>
          let ft := sfType sf in
          let '(ref, refThrough) := getAssocField (sfTag sf) "ref" in
          let '(fk, fkThrough) := getAssocField (sfTag sf) "fk" in
          let thr := tagGet (sfTag sf) "through" in
          let fName := fieldName sf in
          let assocData :=
            mkData BelongsTo (sfIndex sf) "" 0 "" "" 0 "" ""
                   (bool_decide (tagGet (sfTag sf) "autosave" = "true")) in
          let ft := unwrapType ft in
          let refDocData := extractDocumentData rt true in
          let fkDocData := extractDocumentData ft true in
          (* Try to guess ref and fk if not defined. *)
          let '(ref, fk, refThrough, fkThrough) :=
            if bool_decide (ref = "") || bool_decide (fk = "") then
              if negb (bool_decide (thr = "")) then
                ("id", "id",
                 CamelToSnake (typeName rt) ++ "_id",
                 CamelToSnake (typeName ft) ++ "_id")
              else if bool_decide (is_Some (index refDocData !! (fName ++ "_id"))) then
                (fName ++ "_id", "id", refThrough, fkThrough)
              else
                ("id", CamelToSnake (typeName rt) ++ "_id", refThrough, fkThrough)
            else (ref, fk, refThrough, fkThrough) in
          match index refDocData !! ref with
          | None =>
              (Panic ("rel: references (" ++ ref ++ ") field not found "),
               associationCache)
          | Some id =>
              let assocData := setReference id ref assocData in
              match index fkDocData !! fk with
              | None =>
                  (Panic ("rel: foreign_key (" ++ fk ++ ") field not found"),
                   associationCache)
              | Some id =>
                  let assocData := setForeign id fk assocData in
                  (* guess assoc type *)
                  let assocData :=
                    if isSliceField (sfType sf) then
                      if negb (bool_decide (thr = "")) then
                        setThrough refThrough fkThrough thr
                          (setTyp ManyToMany assocData)
                      else setTyp HasMany assocData
                    else if Nat.ltb (String.length (foreignField assocData))
                                    (String.length (referenceField assocData))
                    then setTyp BelongsTo assocData
                    else setTyp HasOne assocData in
                  (Ok assocData, <[key := assocData]> associationCache)
              end
          end
      end
  end.

(** Resolution on a cold cache: what the inference computes. *)
Definition resolve (rt : rtype) (fieldIndex : nat) : result associationData :=
  (extractAssociationData rt fieldIndex ∅).1.

(** A cache holds only what the inference computes for each key: the
    invariant of [associationCache]. *)
Definition cacheCoherent (c : Cache) : Prop :=
  ∀ rt i d, c !! mkKey rt i = Some d → resolve rt i = Ok d.

(** A run of resolutions, one per key, each on the cache the previous one
    left. *)
Definition resolveAll (keys : list associationKey) (c : Cache) : Cache :=
  foldl (λ c k, (extractAssociationData (key_rt k) (key_index k) c).2) c keys.

End Resolver.

(** ** Memory and [reflect.Value]

    Record instances live in memory blocks; a pointer designates a block
    and a path of field positions into it, so that the address of a struct
    held inside another struct ([rv.Addr()]) is a pointer like any other,
    and a record reached through two pointers is one shared object. *)

Record pointer : Type := mkPointer {
  block : nat;
  path : list nat
}.

Inductive value : Type :=
| VBool (b : bool)
| VInt (z : Z)
| VString (s : string)
| VPtr (target : option pointer)
| VSlice (items : option (list value))
| VStruct (fields : list value).

Abbreviation Heap := (gmap nat value).

(** The part of [v] at a path of field positions. *)
Fixpoint subValue (v : value) (p : list nat) : option value :=
  match p with
  | [] => Some v
  | i :: rest =>
      match v with
      | VStruct fields =>
          match fields !! i with
          | Some f => subValue f rest
          | None => None
          end
      | _ => None
      end
  end.

(** [v] with the part at a path replaced. *)
Fixpoint updValue (v : value) (p : list nat) (new : value) : option value :=
  match p with
  | [] => Some new
  | i :: rest =>
      match v with
      | VStruct fields =>
          match fields !! i with
          | Some f =>
              match updValue f rest new with
              | Some f' => Some (VStruct (<[i := f']> fields))
              | None => None
              end
          | None => None
          end
      | _ => None
      end
  end.

(** The address of field [i] of the struct at [p]. *)
Definition fieldAddr (p : pointer) (i : nat) : pointer :=
  mkPointer (block p) (path p ++ [i]).

Definition load (h : Heap) (p : pointer) : option value :=
  match h !! block p with
  | Some v => subValue v (path p)
  | None => None
  end.

Definition store (h : Heap) (p : pointer) (new : value) : option Heap :=
  match h !! block p with
  | Some v =>
      match updValue v (path p) new with
      | Some v' => Some (<[block p := v']> h)
      | None => None
      end
  | None => None
  end.

(** A [reflect.Value]: the zero Value, a variable of some type at an
    address (addressable: a field reached from a pointer), or a value that
    is held in no variable (what [reflect.New], [reflect.MakeSlice] and
    [Addr] return). *)
Inductive Value : Type :=
| Invalid
| Place (t : rtype) (p : pointer)
| Const (t : rtype) (v : value).

(** A Go [interface{}] result: nil, or a value with its dynamic type. *)
Inductive iface : Type :=
| INil
| IVal (t : rtype) (v : value).

(** What [NewDocument] and [NewCollection] return: a wrapper around the
    record, or the sequence of records, a pointer designates. *)
Record DocumentPtr : Type := mkDocument {
  docType : rtype;
  docAddr : pointer
}.

Record CollectionPtr : Type := mkCollection {
  colType : rtype;
  colAddr : pointer
}.

(** [Association] *)
Record Association : Type := mkAssociation {
  data : associationData;
  rv : Value
}.

(** ** Computations over the memory that may panic *)

Definition M (A : Type) : Type := Heap → result A * Heap.

#[global] Instance M_ret : MRet M := λ A a h, (Ok a, h).

#[global] Instance M_bind : MBind M := λ A B f m h,
  match m h with
  | (Ok a, h') => f a h'
  | (Panic msg, h') => (Panic msg, h')
  end.

Definition panic {A} (msg : string) : M A := λ h, (Panic msg, h).

Definition getHeap : M Heap := λ h, (Ok h, h).

Definition liftResult {A} (r : result A) : M A := λ h, (r, h).

(** What the handle takes from the rest of the program: the zero value of
    each type ([reflect.Zero]), [Document.Persisted] of [document.go] as a
    predicate on the contents of the wrapped record, and [isDeepZero] of
    [util.go]. *)
Class Records : Type := mkRecords {
  zeroValue : rtype → value;
  persisted : rtype → value → bool;
  isDeepZero : Heap → Value → Z → bool
}.

Section Handle.
Context `{RT : Runtime} `{RC : Records}.

(** *** The operations of [reflect.Value] the handle calls *)

Definition kindName (k : Kind) : string :=
  match k with
  | KInvalid => "zero"
  | KBool => "bool"
  | KInt => "int"
  | KString => "string"
  | KStruct => "struct"
  | KPtr => "ptr"
  | KSlice => "slice"
  end.

(** [v.Kind()] *)
Definition valueKind (v : Value) : Kind :=
  match v with
  | Invalid => KInvalid
  | Place t _ | Const t _ => kindOf t
  end.

(** [v.Type()] *)
Definition valueType (v : Value) : M rtype :=
  match v with
  | Invalid => panic "reflect: call of reflect.Value.Type on zero Value"
  | Place t _ | Const t _ => mret t
  end.

(** The contents of a Value: read from memory for a variable. *)
Definition contents (v : Value) : M value :=
  match v with
  | Invalid => panic "reflect: call of reflect.Value.Interface on zero Value"
  | Place _ p =>
      h ← getHeap;
      match load h p with
      | Some x => mret x
      | None => panic "invalid memory address"
      end
  | Const _ x => mret x
  end.

(** [v.IsNil()]: defined on pointers and slices, a panic on other kinds. *)
Definition valueIsNil (v : Value) : M bool :=
  match valueKind v with
  | KPtr =>
      x ← contents v;
      match x with
      | VPtr None => mret true
      | _ => mret false
      end
  | KSlice =>
      x ← contents v;
      match x with
      | VSlice None => mret true
      | _ => mret false
      end
  | k => panic ("reflect: call of reflect.Value.IsNil on " ++ kindName k ++ " Value")
  end.

(** [v.Elem()] of a pointer: the variable it points to, the zero Value for
    a nil pointer. *)
Definition valueElem (v : Value) : M Value :=
  match v with
  | Place (TPtr e) _ | Const (TPtr e) _ =>
      x ← contents v;
      match x with
      | VPtr (Some q) => mret (Place e q)
      | _ => mret Invalid
      end
  | _ => panic ("reflect: call of reflect.Value.Elem on " ++ kindName (valueKind v)
                ++ " Value")
  end.

(** [v.Field(i)] of a struct. *)
Definition valueField (v : Value) (i : nat) : M Value :=
  match v with
  | Place (TStruct name) p =>
      match structFields name !! i with
      | Some fd => mret (Place (fdType fd) (fieldAddr p i))
      | None => panic "reflect: Field index out of range"
      end
  | Const (TStruct name) (VStruct fields) =>
      match structFields name !! i, fields !! i with
      | Some fd, Some f => mret (Const (fdType fd) f)
      | _, _ => panic "reflect: Field index out of range"
      end
  | _ => panic ("reflect: call of reflect.Value.Field on " ++ kindName (valueKind v)
                ++ " Value")
  end.

(** The loop of [v.FieldByIndex]: past the first position, a pointer to an
    embedded struct is followed, and a nil one panics. *)
Fixpoint fieldByIndexLoop (first : bool) (v : Value) (index : list nat) : M Value :=
  match index with
  | [] => mret v
  | x :: rest =>
      v ← (if first then mret v
           else
             match v with
             | Place (TPtr (TStruct _)) _ | Const (TPtr (TStruct _)) _ =>
                 isNil ← valueIsNil v;
                 if (isNil : bool)
                 then panic "reflect: indirection through nil pointer to embedded struct"
                 else valueElem v
             | _ => mret v
             end);
      f ← valueField v x;
      fieldByIndexLoop false f rest
  end.

(** [v.FieldByIndex(index)] *)
Definition valueFieldByIndex (v : Value) (index : list nat) : M Value :=
  match index with
  | [x] => valueField v x
  | _ =>
      if bool_decide (valueKind v = KStruct)
      then fieldByIndexLoop true v index
      else panic ("reflect: call of reflect.Value.FieldByIndex on "
                  ++ kindName (valueKind v) ++ " Value")
  end.

(** [v.Addr()] *)
Definition valueAddr (v : Value) : M Value :=
  match v with
  | Place t p => mret (Const (TPtr t) (VPtr (Some p)))
  | _ => panic "reflect.Value.Addr of unaddressable value"
  end.

Definition storeAt (p : pointer) (new : value) : M unit :=
  λ h, match store h p new with
       | Some h' => (Ok (), h')
       | None => (Panic "invalid memory address", h)
       end.

(** [v.Set(x)]: [v] must be addressable and [x] of its type. *)
Definition valueSet (v x : Value) : M unit :=
  match v with
  | Place t p =>
      tx ← valueType x;
      if bool_decide (tx = t) then
        new ← contents x;
        storeAt p new
      else panic "reflect.Set: value is not assignable to type"
  | _ => panic "reflect: reflect.Value.Set using unaddressable value"
  end.

(** [reflect.New(t)]: a pointer to a new zero value of type [t]. *)
Definition reflectNew (t : rtype) : M Value :=
  λ h, let l := fresh (dom h) in
       (Ok (Const (TPtr t) (VPtr (Some (mkPointer l [])))),
        <[l := zeroValue t]> h).

(** [reflect.MakeSlice(t, 0, 0)] *)
Definition reflectMakeSlice (t : rtype) : M Value :=
  match t with
  | TSlice _ => mret (Const t (VSlice (Some [])))
  | _ => panic "reflect.MakeSlice of non-slice type"
  end.

(** [reflect.Indirect(v)] *)
Definition reflectIndirect (v : Value) : M Value :=
  if bool_decide (valueKind v = KPtr) then valueElem v else mret v.

(** [v.Interface()] *)
Definition valueInterface (v : Value) : M iface :=
  t ← valueType v;
  x ← contents v;
  mret (IVal t x).

(** *** The collaborators of the handle *)

(** Modelled from the spec: [NewDocument] of [document.go] is not part of
    the source at hand; the spec gives [wrap(pointerToStruct) → Record]. The
    wrapper designates the struct the pointer points to; a nil pointer and a
    Value that is no pointer to a struct cannot be wrapped. *)
Definition NewDocument (v : Value) : M DocumentPtr :=
  match valueKind v with
  | KPtr =>
      x ← contents v;
      t ← valueType v;
      match x, t with
      | VPtr (Some q), TPtr (TStruct name) => mret (mkDocument (TStruct name) q)
      | _, _ => panic "rel: must be a pointer to struct"
      end
  | _ => panic "rel: must be a pointer to struct"
  end.

(** Modelled from the spec: [NewCollection] of [collection.go] is not part
    of the source at hand; the spec gives
    [wrap(pointerToSequence) → RecordCollection]; a nil pointer and a Value
    that is no pointer to a sequence cannot be wrapped. *)
Definition NewCollection (v : Value) : M CollectionPtr :=
  match valueKind v with
  | KPtr =>
      x ← contents v;
      t ← valueType v;
      match x, t with
      | VPtr (Some q), TPtr (TSlice e) => mret (mkCollection (TSlice e) q)
      | _, _ => panic "rel: must be a pointer to slice"
      end
  | _ => panic "rel: must be a pointer to slice"
  end.

(** [doc.Persisted()]: the predicate of [document.go] on the current
    contents of the wrapped record. *)
Definition Persisted (doc : DocumentPtr) : M bool :=
  x ← contents (Place (docType doc) (docAddr doc));
  mret (persisted (docType doc) x).

(** Modelled from the spec: [indirect] of [util.go] is not part of the
    source at hand; the spec gives the value with pointer indirection
    resolved: nil for a nil pointer, what the pointer points to for a set
    pointer, the value itself otherwise. *)
Definition indirect (v : Value) : M iface :=
  if bool_decide (valueKind v = KPtr) then
    isNil ← valueIsNil v;
    if (isNil : bool) then mret INil
    else e ← valueElem v; valueInterface e
  else valueInterface v.

(** *** The handle *)

(** [a.Type()] *)
Definition Association_Type (a : Association) : AssociationType :=
  typ (data a).

(** [a.Document()] *)
Definition Document (a : Association) : M (DocumentPtr * bool) :=
  rv ← valueFieldByIndex (rv a) (targetIndex (data a));
  match valueKind rv with
  | KPtr =>
      isNil ← valueIsNil rv;
      if (isNil : bool) then
        t ← valueType rv;
        e ← liftResult (typeElem t);
        new ← reflectNew e;
        _ ← valueSet rv new;
        doc ← NewDocument rv;
        mret (doc, false)
      else
        doc ← NewDocument rv;
        loaded ← Persisted doc;
        mret (doc, loaded)
  | _ =>
      addr ← valueAddr rv;
      doc ← NewDocument addr;
      loaded ← Persisted doc;
      mret (doc, loaded)
  end.

(** [a.Collection()] *)
Definition Collection (a : Association) : M (CollectionPtr * bool) :=
  rv ← valueFieldByIndex (rv a) (targetIndex (data a));
  isNil ← valueIsNil rv;
  let loaded := negb isNil in
  if bool_decide (valueKind rv = KPtr) then
    _ ← (if negb loaded then
           t ← valueType rv;
           e ← liftResult (typeElem t);
           new ← reflectNew e;
           _ ← valueSet rv new;
           el ← valueElem rv;
           et ← valueType el;
           s ← reflectMakeSlice et;
           valueSet el s
         else mret ());
    col ← NewCollection rv;
    mret (col, loaded)
  else
    _ ← (if negb loaded then
           t ← valueType rv;
           s ← reflectMakeSlice t;
           valueSet rv s
         else mret ());
    addr ← valueAddr rv;
    col ← NewCollection addr;
    mret (col, loaded).

(** [a.IsZero()] *)
Definition IsZero (a : Association) : M bool :=
  rv ← valueFieldByIndex (rv a) (targetIndex (data a));
  v ← reflectIndirect rv;
  h ← getHeap;
  mret (isDeepZero h v 1).

(** [a.ReferenceField()] *)
Definition ReferenceField (a : Association) : string := referenceField (data a).

(** [a.ReferenceThrough()] *)
Definition ReferenceThrough (a : Association) : string := referenceThrough (data a).

(** [a.ReferenceValue()] *)
Definition ReferenceValue (a : Association) : M iface :=
  f ← valueField (rv a) (referenceIndex (data a));
  indirect f.

(** [a.ForeignField()] *)
Definition ForeignField (a : Association) : string := foreignField (data a).

(** [a.ForeignThrough()] *)
Definition ForeignThrough (a : Association) : string := foreignThrough (data a).

(** [a.ForeignValue()] *)
Definition ForeignValue (a : Association) : M iface :=
  if bool_decide (Association_Type a = HasMany)
     || bool_decide (Association_Type a = ManyToMany)
  then panic "cannot infer foreign value for has many or many to many association"
  else
    rv ← valueFieldByIndex (rv a) (targetIndex (data a));
    rv ← (if bool_decide (valueKind rv = KPtr) then valueElem rv else mret rv);
    f ← valueField rv (foreignIndex (data a));
    indirect f.

(** [a.Through()] *)
Definition Through (a : Association) : string := through (data a).

(** [a.Autosave()] *)
Definition Autosave (a : Association) : bool := autosave (data a).

(** [newAssociation(rv, index)], over the cache of the resolver; the memory
    is only read. *)
Definition newAssociation (v : Value) (fieldIndex : nat) (h : Heap)
    (associationCache : Cache) : result Association * Cache :=
  match (if bool_decide (valueKind v = KPtr) then valueElem v else mret v) h with
  | (Panic msg, _) => (Panic msg, associationCache)
  | (Ok v, _) =>
      match valueType v h with
      | (Panic msg, _) => (Panic msg, associationCache)
      | (Ok t, _) =>
          match extractAssociationData t fieldIndex associationCache with
          | (Ok d, c) => (Ok (mkAssociation d v), c)
          | (Panic msg, c) => (Panic msg, c)
          end
      end
  end.

End Handle.

(** ** The resolution as the specification words it *)

Section ResolverSpec.
Context `{RT : Runtime}.

(** The key names as section 4.1 of the specification words them. *)

(** Step 5, the inference proper: it looks at the [through] tag, at the
    host's index and at the names, never at the [ref] and [fk] tags. *)
Definition inferKeys (rt : rtype) (sf : StructField) : string * string :=
  if negb (bool_decide (tagGet (sfTag sf) "through" = "")) then ("id", "id")
  else if bool_decide
            (is_Some (index (extractDocumentData rt true) !! (fieldName sf ++ "_id")))
  then (fieldName sf ++ "_id", "id")
  else ("id", CamelToSnake (typeName rt) ++ "_id").

(** The keys the tags supply: the part of [ref] and of [fk] before the
    colon. *)
Definition explicitKeys (sf : StructField) : string * string :=
  ((getAssocField (sfTag sf) "ref").1, (getAssocField (sfTag sf) "fk").1).

(** The inferred or explicit keys: inference runs when [ref] or [fk] was
    not supplied. *)
Definition keyNames (rt : rtype) (sf : StructField) : string * string :=
  if bool_decide ((explicitKeys sf).1 = "") || bool_decide ((explicitKeys sf).2 = "")
  then inferKeys rt sf
  else explicitKeys sf.

(** Step 8, the cardinality. *)
Definition cardinality (sf : StructField) (ref fk : string) : AssociationType :=
  if isSliceField (sfType sf) then
    if negb (bool_decide (tagGet (sfTag sf) "through" = "")) then ManyToMany
    else HasMany
  else if Nat.ltb (String.length fk) (String.length ref) then BelongsTo
  else HasOne.

(** The names of the join columns on the through table: the parts of
    [ref] and [fk] after the colon, or, when the keys are inferred under a
    [through] tag, the snake-cased type names. *)
Definition throughNames (rt : rtype) (sf : StructField) : string * string :=
  if (bool_decide ((explicitKeys sf).1 = "") || bool_decide ((explicitKeys sf).2 = ""))
     && negb (bool_decide (tagGet (sfTag sf) "through" = ""))
  then (CamelToSnake (typeName rt) ++ "_id",
        CamelToSnake (typeName (unwrapType (sfType sf))) ++ "_id")
  else ((getAssocField (sfTag sf) "ref").2, (getAssocField (sfTag sf) "fk").2).

Definition refNotFound (ref : string) : string :=
  "rel: references (" ++ ref ++ ") field not found ".

Definition fkNotFound (fk : string) : string :=
  "rel: foreign_key (" ++ fk ++ ") field not found".

End ResolverSpec.

(** The types of the fields that hold records of type [base]: the type
    itself, under any pointers and slices ([[]T], [[]*T], [*[]T], ...). *)
Inductive wrapping (base : rtype) : rtype → Prop :=
| wrapping_base : wrapping base base
| wrapping_ptr t : wrapping base t → wrapping base (TPtr t)
| wrapping_slice t : wrapping base t → wrapping base (TSlice t).

(** ** The handle as the specification words it *)

(** The target instance of a singular association whose field, of type [t],
    is at [fp]: the struct held in the field, or the one a set pointer
    points to; a nil pointer has none. *)
Definition targetInstance (h : Heap) (t : rtype) (fp : pointer) : option Value :=
  match t with
  | TStruct name => Some (Place t fp)
  | TPtr (TStruct name) =>
      match load h fp with
      | Some (VPtr (Some q)) => Some (Place (TStruct name) q)
      | _ => None
      end
  | _ => None
  end.

(** The current value of the variable of type [t] at [p], with pointer
    indirection resolved. *)
Definition resolvedValue (h : Heap) (t : rtype) (p : pointer) : option iface :=
  match t with
  | TPtr e =>
      match load h p with
      | Some (VPtr None) => Some INil
      | Some (VPtr (Some r)) =>
          match load h r with
          | Some y => Some (IVal e y)
          | None => None
          end
      | _ => None
      end
  | _ =>
      match load h p with
      | Some x => Some (IVal t x)
      | None => None
      end
  end.

(** ** A sample program

    The record types of a small program, with a casing function, a field
    naming and a field index for them, and a memory holding some
    instances. The examples below run the resolver and the handle on it. *)

Module Sample.

Definition user : rtype := TStruct "User".
Definition address : rtype := TStruct "Address".
Definition transaction : rtype := TStruct "Transaction".
Definition role : rtype := TStruct "Role".
Definition office : rtype := TStruct "Office".

Definition int : rtype := TBasic BInt.
Definition str : rtype := TBasic BString.

(** [
type User struct {
    ID           int
    Name         string
    Address      Address
    Transactions []Transaction
    Roles        []Role `through:"user_roles"`
    Primary      Role   `through:"user_roles"`
}
type Address struct {
    ID     int
    UserID *int
    User   *User
    Street string
}
type Transaction struct { ID int; Item string; UserID int }
type Role struct { ID int; Name string }
type Office struct {
    ID      int
    UserID  int
    User    *User `fk:"name"`
    Manager *User `ref:"id"`
    Owner   *User `ref:"missing" fk:"id"`
}
] *)
Definition decls (name : string) : list FieldDecl :=
  if bool_decide (name = "User") then
    [ mkFieldDecl "ID" int [];
      mkFieldDecl "Name" str [];
      mkFieldDecl "Address" address [];
      mkFieldDecl "Transactions" (TSlice transaction) [];
      mkFieldDecl "Roles" (TSlice role) [("through", "user_roles")];
      mkFieldDecl "Primary" role [("through", "user_roles")] ]
  else if bool_decide (name = "Address") then
    [ mkFieldDecl "ID" int [];
      mkFieldDecl "UserID" (TPtr int) [];
      mkFieldDecl "User" (TPtr user) [];
      mkFieldDecl "Street" str [] ]
  else if bool_decide (name = "Transaction") then
    [ mkFieldDecl "ID" int [];
      mkFieldDecl "Item" str [];
      mkFieldDecl "UserID" int [] ]
  else if bool_decide (name = "Role") then
    [ mkFieldDecl "ID" int [];
      mkFieldDecl "Name" str [] ]
  else if bool_decide (name = "Office") then
    [ mkFieldDecl "ID" int [];
      mkFieldDecl "UserID" int [];
      mkFieldDecl "User" (TPtr user) [("fk", "name")];
      mkFieldDecl "Manager" (TPtr user) [("ref", "id")];
      mkFieldDecl "Owner" (TPtr user) [("ref", "missing"); ("fk", "id")] ]
  else [].

Definition isUpper (c : ascii) : bool :=
  (65 <=? nat_of_ascii c)%nat && (nat_of_ascii c <=? 90)%nat.

Definition toLower (c : ascii) : ascii :=
  if isUpper c then ascii_of_nat (nat_of_ascii c + 32) else c.

(** Lower case, with an underscore where an upper case letter follows a
    lower case one: [UserID] gives [user_id]. *)
Fixpoint snakeFrom (prevLower : bool) (s : string) : string :=
  match s with
  | EmptyString => EmptyString
  | String c rest =>
      if isUpper c then
        if prevLower then String "_"%char (String (toLower c) (snakeFrom false rest))
        else String (toLower c) (snakeFrom false rest)
      else String c (snakeFrom true rest)
  end.

Definition snake (s : string) : string := snakeFrom false s.

(** The column of a field: its [db] tag, or its name in snake case. *)
Definition columnOf (name : string) (tag : StructTag) : string :=
  if bool_decide (tagGet tag "db" = "") then snake name else tagGet tag "db".

Definition indexOf (fields : list FieldDecl) : gmap string nat :=
  list_to_map (imap (λ i fd, (columnOf (fdName fd) (fdTag fd), i)) fields).

Definition docData (t : rtype) (skipAssoc : bool) : documentData :=
  match t with
  | TStruct name => mkDocumentData (indexOf (decls name))
  | _ => mkDocumentData ∅
  end.

#[export] Instance runtime : Runtime :=
  mkRuntime decls snake (λ sf, columnOf (sfName sf) (sfTag sf)) docData
            (λ _, "rel").

(** Zero values, down to a nesting depth that covers the sample types. *)
Fixpoint zeroAt (depth : nat) (t : rtype) : value :=
  match t with
  | TBasic BBool => VBool false
  | TBasic BInt => VInt 0
  | TBasic BString => VString ""
  | TPtr _ => VPtr None
  | TSlice _ => VSlice None
  | TStruct name =>
      match depth with
      | O => VStruct []
      | S depth' => VStruct (map (λ fd, zeroAt depth' (fdType fd)) (decls name))
      end
  end.

Definition isZeroScalar (v : value) : bool :=
  match v with
  | VBool b => negb b
  | VInt z => (z =? 0)%Z
  | VString s => bool_decide (s = "")
  | VPtr p => bool_decide (p = None)
  | VSlice None => true
  | VSlice (Some _) => false
  | VStruct _ => false
  end.

(** A record is persisted when its first field, the primary key, is set. *)
Definition primarySet (t : rtype) (v : value) : bool :=
  match v with
  | VStruct (pk :: _) => negb (isZeroScalar pk)
  | _ => false
  end.

(** Zero down to the given depth: the fields of a struct are looked into,
    deeper structs are not. *)
Definition deepZero (h : Heap) (v : Value) (depth : Z) : bool :=
  match v with
  | Invalid => true
  | Place _ p =>
      match load h p with
      | Some (VStruct fields) =>
          forallb (λ f, match f with VStruct _ => true | _ => isZeroScalar f end) fields
      | Some x => isZeroScalar x
      | None => true
      end
  | Const _ (VStruct fields) =>
      forallb (λ f, match f with VStruct _ => true | _ => isZeroScalar f end) fields
  | Const _ x => isZeroScalar x
  end.

#[export] Instance records : Records := mkRecords (zeroAt 3) primarySet deepZero.

(** The memory: a user, an address of that user, and an address whose user
    is not set. *)
Definition ann : value :=
  VStruct [VInt 2; VString "ann"; zeroAt 3 address; VSlice None; VSlice None;
           zeroAt 3 role].

Definition annHome : value :=
  VStruct [VInt 5; VPtr (Some (mkPointer 0 [0])); VPtr (Some (mkPointer 0 []));
           VString "main"].

Definition nobodyHome : value :=
  VStruct [VInt 6; VPtr None; VPtr None; VString ""].

Definition heap : Heap := <[2 := nobodyHome]> (<[1 := annHome]> (<[0 := ann]> ∅)).

(** [reflect.ValueOf(&x)] for the record in block [l]. *)
Definition valueOfPtr (t : rtype) (l : nat) : Value :=
  Const (TPtr t) (VPtr (Some (mkPointer l []))).

(** The handle of field [i] of the record in block [l], on a cold cache. *)
Definition handle (t : rtype) (l i : nat) : result Association :=
  (newAssociation (valueOfPtr t l) i heap ∅).1.

(** The handles used below. *)
Definition annAddress : Association :=
  mkAssociation (mkData HasOne [2] "id" 0 "" "user_id" 1 "" "" false)
                (Place user (mkPointer 0 [])).

Definition annTransactions : Association :=
  mkAssociation (mkData HasMany [3] "id" 0 "" "user_id" 2 "" "" false)
                (Place user (mkPointer 0 [])).

Definition annHomeUser : Association :=
  mkAssociation (mkData BelongsTo [2] "user_id" 1 "" "id" 0 "" "" false)
                (Place address (mkPointer 1 [])).

Definition nobodyHomeUser : Association :=
  mkAssociation (mkData BelongsTo [2] "user_id" 1 "" "id" 0 "" "" false)
                (Place address (mkPointer 2 [])).

End Sample.

(** ** Further notions used in the statements *)

(** Whether a string holds a colon. *)
Fixpoint hasColon (s : string) : bool :=
  match s with
  | EmptyString => false
  | String c rest => bool_decide (c = colon) || hasColon rest
  end.

(** A computation that leaves the memory as it finds it, whatever it
    returns. *)
Definition readOnly {A} (m : M A) : Prop := ∀ h, (m h).2 = h.

(** ** A second sample program

    Shelves of books, with a pointer to a slice as association field and
    with explicit keys. *)

Module Shelves.

Definition shelf : rtype := TStruct "Shelf".
Definition book : rtype := TStruct "Book".
Definition tag : rtype := TStruct "Tag".

(** [
type Shelf struct {
    ID    int
    Books *[]Book
}
type Book struct {
    ID      int
    ShelfID int
    Shelf   *Shelf `ref:"shelf_id" fk:"id" autosave:"true"`
    Tags    []Tag  `ref:"id:book_id" fk:"id:tag_id" through:"book_tags"`
    Twin    *Book  `ref:"id" fk:"id"`
    Labels  []Tag  `ref:"id" fk:"id" through:"book_tags"`
}
type Tag struct { ID int }
] *)
Definition decls (name : string) : list FieldDecl :=
  if bool_decide (name = "Shelf") then
    [ mkFieldDecl "ID" Sample.int [];
      mkFieldDecl "Books" (TPtr (TSlice book)) [] ]
  else if bool_decide (name = "Book") then
    [ mkFieldDecl "ID" Sample.int [];
      mkFieldDecl "ShelfID" Sample.int [];
      mkFieldDecl "Shelf" (TPtr shelf)
        [("ref", "shelf_id"); ("fk", "id"); ("autosave", "true")];
      mkFieldDecl "Tags" (TSlice tag)
        [("ref", "id:book_id"); ("fk", "id:tag_id"); ("through", "book_tags")];
      mkFieldDecl "Twin" (TPtr book) [("ref", "id"); ("fk", "id")];
      mkFieldDecl "Labels" (TSlice tag)
        [("ref", "id"); ("fk", "id"); ("through", "book_tags")] ]
  else if bool_decide (name = "Tag") then
    [ mkFieldDecl "ID" Sample.int [] ]
  else [].

Definition docData (t : rtype) (skipAssoc : bool) : documentData :=
  match t with
  | TStruct name => mkDocumentData (Sample.indexOf (decls name))
  | _ => mkDocumentData ∅
  end.

#[export] Instance runtime : Runtime :=
  mkRuntime decls Sample.snake
            (λ sf, Sample.columnOf (sfName sf) (sfTag sf)) docData
            (λ _, "main").

Fixpoint zeroAt (depth : nat) (t : rtype) : value :=
  match t with
  | TBasic BBool => VBool false
  | TBasic BInt => VInt 0
  | TBasic BString => VString ""
  | TPtr _ => VPtr None
  | TSlice _ => VSlice None
  | TStruct name =>
      match depth with
      | O => VStruct []
      | S depth' => VStruct (map (λ fd, zeroAt depth' (fdType fd)) (decls name))
      end
  end.

#[export] Instance records : Records :=
  mkRecords (zeroAt 3) Sample.primarySet Sample.deepZero.

(** The memory: a shelf whose books were never loaded. *)
Definition heap : Heap := <[0 := VStruct [VInt 1; VPtr None]]> ∅.

(** The handle of [Shelf.Books]. *)
Definition shelfBooks : Association :=
  mkAssociation (mkData HasMany [1] "id" 0 "" "shelf_id" 1 "" "" false)
                (Place shelf (mkPointer 0 [])).

End Shelves.

(** * Properties of the resolver *)

Section ResolverFacts.
Context `{RT : Runtime}.

Lemma extract_hit rt i (c : Cache) d :
  c !! mkKey rt i = Some d → extractAssociationData rt i c = (Ok d, c).
Proof. intros H. unfold extractAssociationData. by rewrite H. Qed.

Lemma extract_miss rt i (c : Cache) :
  c !! mkKey rt i = None →
  extractAssociationData rt i c =
    match resolve rt i with
    | Ok d => (Ok d, <[mkKey rt i := d]> c)
    | Panic msg => (Panic msg, c)
    end.
Proof.
  intros H. unfold resolve, extractAssociationData.
  rewrite H, lookup_empty.
  repeat case_match; simplify_eq/=; reflexivity.
Qed.

Lemma resolve_no_field rt i msg :
  typeField rt i = Panic msg → resolve rt i = Panic msg.
Proof.
  intros H. unfold resolve, extractAssociationData.
  by rewrite lookup_empty, H.
Qed.

Lemma resolve_ref_missing rt i sf :
  typeField rt i = Ok sf →
  index (extractDocumentData rt true) !! (keyNames rt sf).1 = None →
  resolve rt i = Panic (refNotFound (keyNames rt sf).1).
Proof.
  intros Hsf. unfold resolve, extractAssociationData, keyNames, inferKeys,
    explicitKeys, refNotFound.
  rewrite lookup_empty, Hsf.
  destruct (getAssocField (sfTag sf) "ref") as [ref refThrough].
  destruct (getAssocField (sfTag sf) "fk") as [fk fkThrough]. simpl.
  intros H.
  repeat case_match; simplify_eq/=; try reflexivity; congruence.
Qed.

Lemma resolve_fk_missing rt i sf :
  typeField rt i = Ok sf →
  is_Some (index (extractDocumentData rt true) !! (keyNames rt sf).1) →
  index (extractDocumentData (unwrapType (sfType sf)) true) !! (keyNames rt sf).2 = None →
  resolve rt i = Panic (fkNotFound (keyNames rt sf).2).
Proof.
  intros Hsf. unfold resolve, extractAssociationData, keyNames, inferKeys,
    explicitKeys, fkNotFound.
  rewrite lookup_empty, Hsf.
  destruct (getAssocField (sfTag sf) "ref") as [ref refThrough].
  destruct (getAssocField (sfTag sf) "fk") as [fk fkThrough]. simpl.
  intros [rid Hrid] H.
  repeat case_match; simplify_eq/=; try reflexivity; congruence.
Qed.

Lemma resolve_found rt i sf rid fid :
  typeField rt i = Ok sf →
  index (extractDocumentData rt true) !! (keyNames rt sf).1 = Some rid →
  index (extractDocumentData (unwrapType (sfType sf)) true) !! (keyNames rt sf).2 = Some fid →
  ∃ d, resolve rt i = Ok d
       ∧ typ d = cardinality sf (keyNames rt sf).1 (keyNames rt sf).2
       ∧ targetIndex d = sfIndex sf
       ∧ referenceField d = (keyNames rt sf).1 ∧ referenceIndex d = rid
       ∧ foreignField d = (keyNames rt sf).2 ∧ foreignIndex d = fid
       ∧ autosave d = bool_decide (tagGet (sfTag sf) "autosave" = "true").
Proof.
  intros Hsf. unfold resolve, extractAssociationData, keyNames, inferKeys,
    explicitKeys, cardinality.
  rewrite lookup_empty, Hsf.
  destruct (getAssocField (sfTag sf) "ref") as [ref refThrough].
  destruct (getAssocField (sfTag sf) "fk") as [fk fkThrough]. simpl.
  intros Hr Hf.
  repeat case_match; simplify_eq/=; eexists; (split; [reflexivity|]); simpl;
    repeat split; congruence.
Qed.

Lemma resolve_through rt i sf d :
  typeField rt i = Ok sf →
  resolve rt i = Ok d →
  (typ d = ManyToMany →
     through d = tagGet (sfTag sf) "through" ∧ through d ≠ ""
     ∧ referenceThrough d = (throughNames rt sf).1
     ∧ foreignThrough d = (throughNames rt sf).2)
  ∧ (typ d ≠ ManyToMany →
     through d = "" ∧ referenceThrough d = "" ∧ foreignThrough d = "").
Proof.
  intros Hsf. unfold resolve, extractAssociationData, throughNames, explicitKeys.
  rewrite lookup_empty, Hsf.
  destruct (getAssocField (sfTag sf) "ref") as [ref refThrough].
  destruct (getAssocField (sfTag sf) "fk") as [fk fkThrough]. simpl.
  repeat case_match; simplify_eq/=; intros; simplify_eq/=;
    (split; [intros | intros]); simplify_eq/=; try done;
    repeat split; try done;
    repeat match goal with
           | H : negb (bool_decide _) = true |- _ =>
               apply negb_true_iff, bool_decide_eq_false in H
           | H : negb (bool_decide _) = false |- _ =>
               apply negb_false_iff, bool_decide_eq_true in H
           end; try done.
Qed.

(** The cache invariant: it holds of the empty cache and every resolution
    keeps it. *)
Lemma cacheCoherent_empty : cacheCoherent ∅.
Proof. intros rt i d H. by rewrite lookup_empty in H. Qed.

Lemma extract_result rt i (c : Cache) :
  cacheCoherent c → (extractAssociationData rt i c).1 = resolve rt i.
Proof.
  intros Hc. destruct (c !! mkKey rt i) as [d|] eqn:Hk.
  - rewrite (extract_hit _ _ _ _ Hk). simpl. symmetry. by apply Hc.
  - rewrite (extract_miss _ _ _ Hk). by destruct (resolve rt i).
Qed.

Lemma extract_cache rt i (c : Cache) :
  (extractAssociationData rt i c).2 = c
  ∨ ∃ d, c !! mkKey rt i = None ∧ resolve rt i = Ok d
         ∧ (extractAssociationData rt i c).2 = <[mkKey rt i := d]> c.
Proof.
  destruct (c !! mkKey rt i) as [d|] eqn:Hk.
  - rewrite (extract_hit _ _ _ _ Hk). by left.
  - rewrite (extract_miss _ _ _ Hk). destruct (resolve rt i) as [d|msg] eqn:Hr.
    + right. by exists d.
    + by left.
Qed.

Lemma extract_coherent rt i (c : Cache) :
  cacheCoherent c → cacheCoherent (extractAssociationData rt i c).2.
Proof.
  intros Hc. destruct (extract_cache rt i c) as [->|(d & Hk & Hr & ->)]; [done|].
  intros rt' i' d' H.
  destruct (decide (mkKey rt i = mkKey rt' i')) as [Heq|Hne].
  - rewrite Heq, lookup_insert_eq in H. by simplify_eq.
  - rewrite lookup_insert_ne in H by done. by apply Hc.
Qed.

(** An entry, once in the cache, stays as it is. *)
Lemma extract_keeps rt i (c : Cache) k d :
  c !! k = Some d → (extractAssociationData rt i c).2 !! k = Some d.
Proof.
  intros H. destruct (extract_cache rt i c) as [->|(d' & Hk & Hr & ->)]; [done|].
  rewrite lookup_insert_ne; [done|]. intros <-. congruence.
Qed.

Lemma resolveAll_keeps keys (c : Cache) k d :
  c !! k = Some d → resolveAll keys c !! k = Some d.
Proof.
  revert c. induction keys as [|k' keys IH]; intros c H; [done|].
  simpl. apply IH. by apply extract_keeps.
Qed.

Lemma resolveAll_coherent keys (c : Cache) :
  cacheCoherent c → cacheCoherent (resolveAll keys c).
Proof.
  revert c. induction keys as [|k' keys IH]; intros c H; [done|].
  simpl. apply IH. by apply extract_coherent.
Qed.

(** A successful resolution leaves its descriptor in the cache. *)
Lemma extract_stores rt i (c : Cache) d :
  (extractAssociationData rt i c).1 = Ok d →
  (extractAssociationData rt i c).2 !! mkKey rt i = Some d.
Proof.
  destruct (c !! mkKey rt i) as [d'|] eqn:Hk.
  - rewrite (extract_hit _ _ _ _ Hk). simpl. congruence.
  - rewrite (extract_miss _ _ _ Hk). destruct (resolve rt i) as [d'|msg]; [|done].
    simpl. intros [= <-]. apply lookup_insert_eq.
Qed.

Lemma length_append (a b : string) :
  String.length (a ++ b) = String.length a + String.length b.
Proof.
  induction a as [|ch a IH]; [done|].
  change (S (String.length (a ++ b)) = S (String.length a + String.length b)).
  by rewrite IH.
Qed.

End ResolverFacts.


Section ResolverClaims.
Context `{RT : Runtime}.

Lemma explicitKeys_untagged_ref sf :
  tagGet (sfTag sf) "ref" = "" → (explicitKeys sf).1 = "".
Proof. intros H. unfold explicitKeys, getAssocField. by rewrite H. Qed.

Lemma explicitKeys_untagged_fk sf :
  tagGet (sfTag sf) "fk" = "" → (explicitKeys sf).2 = "".
Proof. intros H. unfold explicitKeys, getAssocField. by rewrite H. Qed.

Lemma keyNames_inferred rt sf :
  tagGet (sfTag sf) "ref" = "" ∨ tagGet (sfTag sf) "fk" = "" →
  keyNames rt sf = inferKeys rt sf.
Proof.
  intros [H|H]; unfold keyNames.
  - by rewrite (explicitKeys_untagged_ref _ H).
  - rewrite (explicitKeys_untagged_fk _ H).
    by rewrite orb_true_r.
Qed.

Lemma throughNames_untagged rt sf :
  tagGet (sfTag sf) "ref" = "" ∨ tagGet (sfTag sf) "fk" = "" →
  tagGet (sfTag sf) "through" ≠ "" →
  throughNames rt sf =
    (CamelToSnake (typeName rt) ++ "_id",
     CamelToSnake (typeName (unwrapType (sfType sf))) ++ "_id").
Proof.
  intros H Ht. unfold throughNames.
  assert (bool_decide ((explicitKeys sf).1 = "")
          || bool_decide ((explicitKeys sf).2 = "") = true) as ->.
  { destruct H as [H|H].
    - by rewrite (explicitKeys_untagged_ref _ H).
    - rewrite (explicitKeys_untagged_fk _ H). apply orb_true_r. }
  by rewrite (bool_decide_eq_false_2 _ Ht).
Qed.

(** The three outcomes of a resolution at a field position. *)
Lemma resolve_cases rt i sf :
  typeField rt i = Ok sf →
  (index (extractDocumentData rt true) !! (keyNames rt sf).1 = None
   ∧ resolve rt i = Panic (refNotFound (keyNames rt sf).1))
  ∨ (is_Some (index (extractDocumentData rt true) !! (keyNames rt sf).1)
     ∧ index (extractDocumentData (unwrapType (sfType sf)) true)
         !! (keyNames rt sf).2 = None
     ∧ resolve rt i = Panic (fkNotFound (keyNames rt sf).2))
  ∨ (∃ d rid fid,
       index (extractDocumentData rt true) !! (keyNames rt sf).1 = Some rid
       ∧ index (extractDocumentData (unwrapType (sfType sf)) true)
           !! (keyNames rt sf).2 = Some fid
       ∧ resolve rt i = Ok d
       ∧ typ d = cardinality sf (keyNames rt sf).1 (keyNames rt sf).2
       ∧ targetIndex d = sfIndex sf
       ∧ referenceField d = (keyNames rt sf).1 ∧ referenceIndex d = rid
       ∧ foreignField d = (keyNames rt sf).2 ∧ foreignIndex d = fid).
Proof.
  intros Hsf.
  destruct (index (extractDocumentData rt true) !! (keyNames rt sf).1)
    as [rid|] eqn:Hr.
  - destruct (index (extractDocumentData (unwrapType (sfType sf)) true)
                !! (keyNames rt sf).2) as [fid|] eqn:Hf.
    + right; right.
      destruct (resolve_found rt i sf rid fid Hsf Hr Hf)
        as (d & ? & ? & ? & ? & ? & ? & ? & ?).
      exists d, rid, fid. repeat split; done.
    + right; left. split; [by eexists|]. split; [done|].
      apply resolve_fk_missing; [done| |done]. rewrite Hr. by eexists.
  - left. split; [done|]. by apply resolve_ref_missing.
Qed.

Lemma resolve_ok_field rt i d :
  resolve rt i = Ok d → ∃ sf, typeField rt i = Ok sf.
Proof.
  intros H. destruct (typeField rt i) as [sf|msg] eqn:Hsf; [by eexists|].
  rewrite (resolve_no_field _ _ _ Hsf) in H. discriminate.
Qed.

(** C1. Belongs-to inference: at a field with no [ref], [fk] or [through]
    tag whose type is not a sequence, when the host's index has
    [<fieldName>_id], the resolution succeeds exactly when the target's
    index has [id], and the descriptor it yields has type [BelongsTo],
    reference field [<fieldName>_id] and foreign field [id]. *)
Theorem belongs_to_inference rt i sf (c : Cache) :
  cacheCoherent c →
  typeField rt i = Ok sf →
  tagGet (sfTag sf) "ref" = "" →
  tagGet (sfTag sf) "fk" = "" →
  tagGet (sfTag sf) "through" = "" →
  isSliceField (sfType sf) = false →
  is_Some (index (extractDocumentData rt true) !! (fieldName sf ++ "_id")) →
  (is_ok (extractAssociationData rt i c).1
   ↔ is_Some (index (extractDocumentData (unwrapType (sfType sf)) true) !! "id"))
  ∧ ∀ d, (extractAssociationData rt i c).1 = Ok d →
         typ d = BelongsTo
         ∧ referenceField d = fieldName sf ++ "_id"
         ∧ foreignField d = "id".
Proof.
  intros Hc Hsf Href Hfk Hthr Hone Hhost.
  rewrite (extract_result _ _ _ Hc).
  assert (Hkeys : keyNames rt sf = (fieldName sf ++ "_id", "id")).
  { rewrite keyNames_inferred by auto. unfold inferKeys.
    rewrite Hthr. simpl. by rewrite (bool_decide_eq_true_2 _ Hhost). }
  assert (Hcard : cardinality sf (fieldName sf ++ "_id") "id" = BelongsTo).
  { unfold cardinality. rewrite Hone.
    rewrite length_append. simpl.
    destruct (Nat.ltb_spec 2 (String.length (fieldName sf) + 3)); [done|lia]. }
  destruct (resolve_cases rt i sf Hsf)
    as [[Hr ->]|[(Hr & Hf & ->)|(d & rid & fid & Hr & Hf & -> & Ht & _ & Hrf & _ & Hff & _)]];
    rewrite Hkeys in *; simpl in *.
  - destruct Hhost as [x Hx]. congruence.
  - split; [|done]. split; [done|]. intros [x Hx]. congruence.
  - split.
    + split; [by eexists|done].
    + intros d' [= <-]. by rewrite Ht, Hcard.
Qed.

(** C2. Has-one fallback: at a field with no [ref], [fk] or [through] tag
    whose type is not a sequence, when the host's index has no
    [<fieldName>_id], the resolution succeeds exactly when the host's index
    has [id] and the target's index has [<snake_case(hostType)>_id], and the
    descriptor it yields has type [HasOne], reference field [id] and that
    foreign field. *)
Theorem has_one_fallback rt i sf (c : Cache) :
  cacheCoherent c →
  typeField rt i = Ok sf →
  tagGet (sfTag sf) "ref" = "" →
  tagGet (sfTag sf) "fk" = "" →
  tagGet (sfTag sf) "through" = "" →
  isSliceField (sfType sf) = false →
  index (extractDocumentData rt true) !! (fieldName sf ++ "_id") = None →
  (is_ok (extractAssociationData rt i c).1
   ↔ is_Some (index (extractDocumentData rt true) !! "id")
     ∧ is_Some (index (extractDocumentData (unwrapType (sfType sf)) true)
                  !! (CamelToSnake (typeName rt) ++ "_id")))
  ∧ ∀ d, (extractAssociationData rt i c).1 = Ok d →
         typ d = HasOne
         ∧ referenceField d = "id"
         ∧ foreignField d = CamelToSnake (typeName rt) ++ "_id".
Proof.
  intros Hc Hsf Href Hfk Hthr Hone Hhost.
  rewrite (extract_result _ _ _ Hc).
  assert (Hkeys : keyNames rt sf = ("id", CamelToSnake (typeName rt) ++ "_id")).
  { rewrite keyNames_inferred by auto. unfold inferKeys.
    rewrite Hthr. simpl. rewrite bool_decide_eq_false_2; [done|].
    rewrite Hhost. by intros [x Hx]. }
  assert (Hcard : cardinality sf "id" (CamelToSnake (typeName rt) ++ "_id") = HasOne).
  { unfold cardinality. rewrite Hone.
    rewrite length_append. simpl.
    destruct (Nat.ltb_spec (String.length (CamelToSnake (typeName rt)) + 3) 2);
      [lia|done]. }
  destruct (resolve_cases rt i sf Hsf)
    as [[Hr ->]|[(Hr & Hf & ->)|(d & rid & fid & Hr & Hf & -> & Ht & _ & Hrf & _ & Hff & _)]];
    rewrite Hkeys in *; simpl in *.
  - split; [|done]. split; [done|]. intros [[x Hx] _]. congruence.
  - split; [|done]. split; [done|]. intros [_ [x Hx]]. congruence.
  - split.
    + split; [|done]. intros _. split; by eexists.
    + intros d' [= <-]. by rewrite Ht, Hcard.
Qed.

(** C3. Many-to-many inference: at a sequence-typed field holding records
    of the struct type [name] (a slice or a pointer to a slice, of the
    records or of pointers to them), with a [through] tag and no [ref] or
    [fk] tag, the resolution succeeds exactly when the host's index and the
    index of the record type have [id], and the descriptor has type
    [ManyToMany], the tag's value as through table, and the snake-cased
    host type name and record type name, each followed by [_id], as through
    keys. Without a [through] tag the resolution succeeds exactly when the
    inferred or explicit keys are in the host's index and in the index of
    the record type, and the descriptor has type [HasMany]. *)
Theorem many_to_many_inference rt i sf (c : Cache) name :
  cacheCoherent c →
  typeField rt i = Ok sf →
  isSliceField (sfType sf) = true →
  wrapping (TStruct name) (sfType sf) →
  (tagGet (sfTag sf) "through" ≠ "" →
   tagGet (sfTag sf) "ref" = "" →
   tagGet (sfTag sf) "fk" = "" →
   (is_ok (extractAssociationData rt i c).1
    ↔ is_Some (index (extractDocumentData rt true) !! "id")
      ∧ is_Some (index (extractDocumentData (TStruct name) true) !! "id"))
   ∧ ∀ d, (extractAssociationData rt i c).1 = Ok d →
          typ d = ManyToMany
          ∧ through d = tagGet (sfTag sf) "through"
          ∧ referenceThrough d = CamelToSnake (typeName rt) ++ "_id"
          ∧ foreignThrough d = CamelToSnake name ++ "_id")
  ∧ (tagGet (sfTag sf) "through" = "" →
     (is_ok (extractAssociationData rt i c).1
      ↔ is_Some (index (extractDocumentData rt true) !! (keyNames rt sf).1)
        ∧ is_Some (index (extractDocumentData (TStruct name) true)
                     !! (keyNames rt sf).2))
     ∧ ∀ d, (extractAssociationData rt i c).1 = Ok d → typ d = HasMany).
Proof.
  intros Hc Hsf Hmany Hw.
  assert (Hun : unwrapType (sfType sf) = TStruct name).
  { clear -Hw. induction Hw; simpl; auto. }
  rewrite (extract_result _ _ _ Hc).
  split.
  - intros Hthr Href Hfk.
    assert (Hkeys : keyNames rt sf = ("id", "id")).
    { rewrite keyNames_inferred by auto. unfold inferKeys.
      by rewrite (bool_decide_eq_false_2 _ Hthr). }
    assert (Hcard : ∀ a b, cardinality sf a b = ManyToMany).
    { intros a b. unfold cardinality.
      by rewrite Hmany, (bool_decide_eq_false_2 _ Hthr). }
    destruct (resolve_cases rt i sf Hsf)
      as [[Hr Hres]|[(Hr & Hf & Hres)|(d & rid & fid & Hr & Hf & Hres & Ht & _)]];
      rewrite Hkeys, ?Hun in *; simpl in *; rewrite Hres.
    + split; [|done]. split; [done|]. intros [[x Hx] _]. congruence.
    + split; [|done]. split; [done|]. intros [_ [x Hx]]. congruence.
    + split.
      * split; [|done]. intros _. split; by eexists.
      * intros d' [= <-]. rewrite Hcard in Ht.
        destruct (resolve_through rt i sf d Hsf Hres) as [Hm _].
        destruct (Hm Ht) as (? & _ & ? & ?).
        rewrite throughNames_untagged, Hun in * by auto. done.
  - intros Hthr.
    assert (Hcard : ∀ a b, cardinality sf a b = HasMany).
    { intros a b. unfold cardinality.
      by rewrite Hmany, (bool_decide_eq_true_2 _ Hthr). }
    destruct (resolve_cases rt i sf Hsf)
      as [[Hr Hres]|[(Hr & Hf & Hres)|(d & rid & fid & Hr & Hf & Hres & Ht & _)]];
      rewrite ?Hun in *; rewrite Hres.
    + split; [|done]. split; [done|]. intros [[x Hx] _]. congruence.
    + split; [|done]. split; [done|]. intros [_ [x Hx]]. congruence.
    + split.
      * split; [|done]. intros _. split; by eexists.
      * intros d' [= <-]. by rewrite Ht, Hcard.
Qed.

(** C4. Missing-field failure: at a field position of the host type, the
    resolution panics exactly when the inferred or explicit reference key
    is missing from the host's index or the foreign key is missing from the
    target's index; the message names the missing key (the reference key
    when both are missing); with both present the resolution succeeds. *)
Theorem missing_field_failure rt i sf (c : Cache) :
  cacheCoherent c →
  typeField rt i = Ok sf →
  (is_panic (extractAssociationData rt i c).1
   ↔ index (extractDocumentData rt true) !! (keyNames rt sf).1 = None
     ∨ index (extractDocumentData (unwrapType (sfType sf)) true)
         !! (keyNames rt sf).2 = None)
  ∧ (index (extractDocumentData rt true) !! (keyNames rt sf).1 = None →
     (extractAssociationData rt i c).1 = Panic (refNotFound (keyNames rt sf).1))
  ∧ (is_Some (index (extractDocumentData rt true) !! (keyNames rt sf).1) →
     index (extractDocumentData (unwrapType (sfType sf)) true)
       !! (keyNames rt sf).2 = None →
     (extractAssociationData rt i c).1 = Panic (fkNotFound (keyNames rt sf).2))
  ∧ (is_Some (index (extractDocumentData rt true) !! (keyNames rt sf).1) →
     is_Some (index (extractDocumentData (unwrapType (sfType sf)) true)
                !! (keyNames rt sf).2) →
     is_ok (extractAssociationData rt i c).1).
Proof.
  intros Hc Hsf.
  rewrite (extract_result _ _ _ Hc).
  destruct (resolve_cases rt i sf Hsf)
    as [[Hr ->]|[(Hr & Hf & ->)|(d & rid & fid & Hr & Hf & -> & _)]].
  - repeat split; try done; auto.
    + intros [x Hx]. congruence.
    + intros [x Hx]. congruence.
  - repeat split; try done; auto.
    + destruct Hr as [x Hx]. congruence.
    + intros _ [x Hx]. congruence.
  - repeat split; try done.
    + intros [H|H]; congruence.
    + congruence.
    + congruence.
Qed.

(** C7. Determinism and cache reuse: a second resolution of the same key
    returns what the first returned and leaves the cache as the first left
    it; resolutions of a key on any two caches that satisfy the cache
    invariant return the same; and once a resolution has returned a
    descriptor, every later resolution of that key, after any run of other
    resolutions, returns that descriptor from the cache and leaves the
    cache alone, whatever the type declarations and collaborators would now
    compute: nothing is inferred again. *)
Theorem resolution_cached rt i (c : Cache) :
  extractAssociationData rt i (extractAssociationData rt i c).2
  = extractAssociationData rt i c
  ∧ (∀ c' : Cache, cacheCoherent c → cacheCoherent c' →
       (extractAssociationData rt i c').1 = (extractAssociationData rt i c).1)
  ∧ ∀ d c1, extractAssociationData rt i c = (Ok d, c1) →
      ∀ (RT' : Runtime) (keys : list associationKey),
        @extractAssociationData RT' rt i (@resolveAll RT' keys c1)
        = (Ok d, @resolveAll RT' keys c1).
Proof.
  split; [|split].
  - destruct (c !! mkKey rt i) as [d|] eqn:Hk.
    + rewrite (extract_hit _ _ _ _ Hk). simpl. by apply extract_hit.
    + rewrite (extract_miss _ _ _ Hk). destruct (resolve rt i) as [d|msg] eqn:Hr.
      * simpl. apply extract_hit, lookup_insert_eq.
      * simpl. by rewrite (extract_miss _ _ _ Hk), Hr.
  - intros c' Hc Hc'. by rewrite !extract_result.
  - intros d c1 Hd RT' keys.
    apply (@extract_hit RT'), (@resolveAll_keeps RT').
    pose proof (@extract_stores RT rt i c d) as Hs.
    rewrite Hd in Hs. by apply Hs.
Qed.

(** C9. The through table and the two through keys of a resolved
    descriptor are empty unless its type is [ManyToMany]: any of them being
    non-empty makes the type [ManyToMany], and a [BelongsTo], [HasOne] or
    [HasMany] descriptor has all three empty, whatever tags the field
    carries. *)
Theorem through_only_many_to_many rt i (c : Cache) d :
  cacheCoherent c →
  (extractAssociationData rt i c).1 = Ok d →
  (through d ≠ "" ∨ referenceThrough d ≠ "" ∨ foreignThrough d ≠ "" →
   typ d = ManyToMany)
  ∧ (typ d = BelongsTo ∨ typ d = HasOne ∨ typ d = HasMany →
     through d = "" ∧ referenceThrough d = "" ∧ foreignThrough d = "").
Proof.
  intros Hc. rewrite (extract_result _ _ _ Hc). intros Hres.
  destruct (resolve_ok_field _ _ _ Hres) as [sf Hsf].
  destruct (resolve_through rt i sf d Hsf Hres) as [_ Hne].
  split.
  - intros H. destruct (decide (typ d = ManyToMany)) as [|Hn]; [done|].
    destruct (Hne Hn) as (? & ? & ?). destruct H as [H|[H|H]]; congruence.
  - intros H. apply Hne. intros Hm. rewrite Hm in H.
    destruct H as [H|[H|H]]; discriminate.
Qed.

(** C10. A lone [ref] or [fk] tag is discarded: when exactly one of the two
    tags is supplied, the keys of the descriptor are the inferred ones, the
    through keys are empty or the snake-cased type names, and a panic names
    an inferred key; the value of the tag is nowhere in the outcome unless
    it coincides with one of those. *)
Theorem lone_key_tag_discarded rt i sf (c : Cache) :
  cacheCoherent c →
  typeField rt i = Ok sf →
  (tagGet (sfTag sf) "ref" ≠ "" ∧ tagGet (sfTag sf) "fk" = "")
  ∨ (tagGet (sfTag sf) "ref" = "" ∧ tagGet (sfTag sf) "fk" ≠ "") →
  ((extractAssociationData rt i c).1 = Panic (refNotFound (inferKeys rt sf).1)
   ∨ (extractAssociationData rt i c).1 = Panic (fkNotFound (inferKeys rt sf).2)
   ∨ is_ok (extractAssociationData rt i c).1)
  ∧ ∀ d, (extractAssociationData rt i c).1 = Ok d →
      referenceField d = (inferKeys rt sf).1
      ∧ foreignField d = (inferKeys rt sf).2
      ∧ (referenceThrough d = ""
         ∨ referenceThrough d = CamelToSnake (typeName rt) ++ "_id")
      ∧ (foreignThrough d = ""
         ∨ foreignThrough d
           = CamelToSnake (typeName (unwrapType (sfType sf))) ++ "_id").
Proof.
  intros Hc Hsf Hlone.
  rewrite (extract_result _ _ _ Hc).
  assert (Hun : tagGet (sfTag sf) "ref" = "" ∨ tagGet (sfTag sf) "fk" = "").
  { destruct Hlone as [[_ H]|[H _]]; auto. }
  pose proof (keyNames_inferred rt sf Hun) as Hkeys.
  destruct (resolve_cases rt i sf Hsf)
    as [[Hr Hres]|[(Hr & Hf & Hres)|(d & rid & fid & Hr & Hf & Hres & Ht & _ & Hrf & _ & Hff & _)]];
    rewrite Hkeys in *; rewrite Hres.
  - split; [by left|done].
  - split; [by right; left|done].
  - split; [by right; right|].
    intros d' [= <-]. split; [done|]. split; [done|].
    destruct (resolve_through rt i sf d Hsf Hres) as [Hm Hne].
    destruct (decide (typ d = ManyToMany)) as [Hy|Hn].
    + destruct (Hm Hy) as (Hthr & Hthr' & -> & ->).
      rewrite Hthr in Hthr'.
      rewrite throughNames_untagged by done. simpl. by split; right.
    + destruct (Hne Hn) as (_ & -> & ->). by split; left.
Qed.

End ResolverClaims.

(** * Properties of the memory *)

Section MemoryFacts.

Lemma updValue_sub v p x y :
  subValue v p = Some y →
  ∃ v', updValue v p x = Some v' ∧ subValue v' p = Some x.
Proof.
  revert v. induction p as [|i p IH]; intros v H; simpl in *.
  - by eexists.
  - destruct v; try done. destruct (fields !! i) as [f|] eqn:Hf; [|done].
    destruct (IH f H) as (f' & Hu & Hs). rewrite Hu.
    eexists. split; [done|]. simpl.
    rewrite list_lookup_insert_eq; [done|]. by eapply lookup_lt_Some.
Qed.

(** A variable that can be read can be written, reads back what was
    written, and the other blocks are as before. *)
Lemma store_load (h : Heap) p x y :
  load h p = Some y →
  ∃ h', store h p x = Some h' ∧ load h' p = Some x
        ∧ ∀ q, block q ≠ block p → load h' q = load h q.
Proof.
  unfold load, store. destruct (h !! block p) as [v|] eqn:Hb; [|done].
  intros H. destruct (updValue_sub v (path p) x y H) as (v' & Hu & Hs).
  rewrite Hu. eexists. split; [done|]. split.
  - by rewrite lookup_insert_eq.
  - intros q Hq. by rewrite lookup_insert_ne.
Qed.

Lemma load_fresh (h : Heap) p y :
  load h p = Some y → block p ≠ fresh (dom h).
Proof.
  unfold load. destruct (h !! block p) as [v|] eqn:Hb; [|done].
  intros _ Heq. pose proof (is_fresh (dom h)) as Hf.
  apply Hf. rewrite <- Heq. apply elem_of_dom. by eexists.
Qed.

Lemma load_alloc (h : Heap) l z q :
  block q ≠ l → load (<[l := z]> h) q = load h q.
Proof. intros H. unfold load. by rewrite lookup_insert_ne. Qed.

Lemma load_new (h : Heap) l z : load (<[l := z]> h) (mkPointer l []) = Some z.
Proof. unfold load. simpl. by rewrite lookup_insert_eq. Qed.

End MemoryFacts.

(** * Properties of the handle *)

Section HandleFacts.
Context `{RT : Runtime} `{RC : Records}.

#[local] Arguments contents : simpl never.
#[local] Arguments load : simpl never.
#[local] Arguments store : simpl never.
#[local] Arguments fieldAddr : simpl never.

Lemma bind_eq {A B} (m : M A) (f : A → M B) h :
  (m ≫= f) h = match m h with
               | (Ok a, h') => f a h'
               | (Panic msg, h') => (Panic msg, h')
               end.
Proof. reflexivity. Qed.

Ltac mrun :=
  repeat first [ rewrite bind_eq
               | rewrite bool_decide_eq_true_2 by done
               | progress simpl ].

Lemma contents_place t p h x :
  load h p = Some x → contents (Place t p) h = (Ok x, h).
Proof. intros H. unfold contents. rewrite bind_eq. simpl. by rewrite H. Qed.

(** The first step of every accessor: the target field of the host. *)
Lemma target_field a h host p i fd :
  rv a = Place (TStruct host) p →
  targetIndex (data a) = [i] →
  structFields host !! i = Some fd →
  valueFieldByIndex (rv a) (targetIndex (data a)) h
  = (Ok (Place (fdType fd) (fieldAddr p i)), h).
Proof. intros -> -> H. simpl. by rewrite H. Qed.

Lemma indirect_resolved h t p v :
  resolvedValue h t p = Some v → indirect (Place t p) h = (Ok v, h).
Proof.
  unfold resolvedValue, indirect, valueIsNil, valueInterface.
  destruct t as [b|name|e|e]; intros H.
  - destruct (load h p) as [x|] eqn:Hx; [|done]. simplify_eq.
    rewrite bool_decide_eq_false_2 by (by destruct b). mrun.
    erewrite contents_place by exact Hx. by mrun.
  - destruct (load h p) as [x|] eqn:Hx; [|done]. simplify_eq.
    rewrite bool_decide_eq_false_2 by done. mrun.
    erewrite contents_place by exact Hx. by mrun.
  - destruct (load h p) as [x|] eqn:Hx; [|done].
    destruct x as [| | |[r|]| |]; try done.
    + destruct (load h r) as [y|] eqn:Hy; [|done]. simplify_eq. mrun.
      erewrite contents_place by exact Hx. mrun.
      erewrite contents_place by exact Hx. mrun.
      erewrite contents_place by exact Hy. by mrun.
    + simplify_eq. mrun. erewrite contents_place by exact Hx. by mrun.
  - destruct (load h p) as [x|] eqn:Hx; [|done]. simplify_eq.
    rewrite bool_decide_eq_false_2 by done. mrun.
    erewrite contents_place by exact Hx. by mrun.
Qed.

(** What [reflect.New] followed by [Set] does to a nil pointer field. *)
Lemma allocate_target (h : Heap) fp z :
  load h fp = Some (VPtr None) →
  ∃ h', store (<[fresh (dom h) := z]> h) fp
          (VPtr (Some (mkPointer (fresh (dom h)) []))) = Some h'
        ∧ load h' fp = Some (VPtr (Some (mkPointer (fresh (dom h)) [])))
        ∧ load h' (mkPointer (fresh (dom h)) []) = Some z.
Proof.
  intros Hnil. set (l := fresh (dom h)).
  assert (Hl : block fp ≠ l) by (by eapply load_fresh).
  assert (Hnil' : load (<[l := z]> h) fp = Some (VPtr None)).
  { by rewrite load_alloc. }
  destruct (store_load _ _ (VPtr (Some (mkPointer l []))) _ Hnil')
    as (h' & Hst & Hld & Hother).
  exists h'. split; [done|]. split; [done|].
  rewrite Hother; [apply load_new|]. intros E. apply Hl. by rewrite <- E.
Qed.

Lemma Document_nil a h host p i fd name h' :
  rv a = Place (TStruct host) p →
  targetIndex (data a) = [i] →
  structFields host !! i = Some fd →
  fdType fd = TPtr (TStruct name) →
  load h (fieldAddr p i) = Some (VPtr None) →
  store (<[fresh (dom h) := zeroValue (TStruct name)]> h) (fieldAddr p i)
    (VPtr (Some (mkPointer (fresh (dom h)) []))) = Some h' →
  load h' (fieldAddr p i) = Some (VPtr (Some (mkPointer (fresh (dom h)) []))) →
  Document a h
  = (Ok (mkDocument (TStruct name) (mkPointer (fresh (dom h)) []), false), h').
Proof.
  intros Hrv Hidx Hfd Ht Hnil Hst Hld.
  unfold Document. rewrite bind_eq, (target_field _ _ _ _ _ _ Hrv Hidx Hfd).
  rewrite Ht. unfold valueIsNil, NewDocument. mrun.
  erewrite contents_place by exact Hnil. mrun.
  unfold storeAt. rewrite Hst. mrun.
  erewrite contents_place by exact Hld. by mrun.
Qed.

Lemma Document_set a h host p i fd name q x :
  rv a = Place (TStruct host) p →
  targetIndex (data a) = [i] →
  structFields host !! i = Some fd →
  fdType fd = TPtr (TStruct name) →
  load h (fieldAddr p i) = Some (VPtr (Some q)) →
  load h q = Some x →
  Document a h = (Ok (mkDocument (TStruct name) q, persisted (TStruct name) x), h).
Proof.
  intros Hrv Hidx Hfd Ht Hq Hx.
  unfold Document. rewrite bind_eq, (target_field _ _ _ _ _ _ Hrv Hidx Hfd).
  rewrite Ht. unfold valueIsNil, NewDocument, Persisted. mrun.
  erewrite contents_place by exact Hq. mrun.
  erewrite contents_place by exact Hq. mrun.
  erewrite contents_place by exact Hx. by mrun.
Qed.

Lemma Document_plain a h host p i fd name x :
  rv a = Place (TStruct host) p →
  targetIndex (data a) = [i] →
  structFields host !! i = Some fd →
  fdType fd = TStruct name →
  load h (fieldAddr p i) = Some x →
  Document a h
  = (Ok (mkDocument (TStruct name) (fieldAddr p i), persisted (TStruct name) x), h).
Proof.
  intros Hrv Hidx Hfd Ht Hx.
  unfold Document. rewrite bind_eq, (target_field _ _ _ _ _ _ Hrv Hidx Hfd).
  rewrite Ht. unfold NewDocument, Persisted. mrun.
  erewrite contents_place by exact Hx. by mrun.
Qed.

Lemma not_many a :
  typ (data a) = BelongsTo ∨ typ (data a) = HasOne →
  bool_decide (Association_Type a = HasMany)
  || bool_decide (Association_Type a = ManyToMany) = false.
Proof. unfold Association_Type. by intros [-> | ->]. Qed.

Lemma ForeignValue_target a h host p i fd name q fkd v :
  typ (data a) = BelongsTo ∨ typ (data a) = HasOne →
  rv a = Place (TStruct host) p →
  targetIndex (data a) = [i] →
  structFields host !! i = Some fd →
  targetInstance h (fdType fd) (fieldAddr p i) = Some (Place (TStruct name) q) →
  structFields name !! foreignIndex (data a) = Some fkd →
  resolvedValue h (fdType fkd) (fieldAddr q (foreignIndex (data a))) = Some v →
  ForeignValue a h = (Ok v, h).
Proof.
  intros H Hrv Hidx Hfd Htgt Hfk Hv.
  unfold ForeignValue. rewrite (not_many _ H).
  rewrite bind_eq, (target_field _ _ _ _ _ _ Hrv Hidx Hfd).
  unfold targetInstance in Htgt.
  destruct (fdType fd) as [b|name'|[b|name'|e|e]|e]; try done.
  - simplify_eq. mrun. rewrite Hfk. mrun. by apply indirect_resolved.
  - destruct (load h (fieldAddr p i)) as [[| | |[r|]| |]|] eqn:Hx; try done.
    simplify_eq. mrun.
    erewrite contents_place by exact Hx. mrun. rewrite Hfk. mrun.
    by apply indirect_resolved.
Qed.

Lemma ForeignValue_nil a h host p i fd name :
  typ (data a) = BelongsTo ∨ typ (data a) = HasOne →
  rv a = Place (TStruct host) p →
  targetIndex (data a) = [i] →
  structFields host !! i = Some fd →
  fdType fd = TPtr (TStruct name) →
  load h (fieldAddr p i) = Some (VPtr None) →
  ForeignValue a h
  = (Panic "reflect: call of reflect.Value.Field on zero Value", h).
Proof.
  intros H Hrv Hidx Hfd Ht Hnil.
  unfold ForeignValue. rewrite (not_many _ H).
  rewrite bind_eq, (target_field _ _ _ _ _ _ Hrv Hidx Hfd). rewrite Ht.
  mrun. erewrite contents_place by exact Hnil. by mrun.
Qed.

Lemma IsZero_total a h host p i fd x :
  rv a = Place (TStruct host) p →
  targetIndex (data a) = [i] →
  structFields host !! i = Some fd →
  load h (fieldAddr p i) = Some x →
  is_ok (IsZero a h).1.
Proof.
  intros Hrv Hidx Hfd Hx.
  unfold IsZero, reflectIndirect.
  rewrite bind_eq, (target_field _ _ _ _ _ _ Hrv Hidx Hfd).
  destruct (fdType fd) as [[]|name|e|e]; mrun; try done.
  erewrite contents_place by exact Hx. mrun.
  by destruct x as [| | |[r|]| |].
Qed.

Lemma Collection_plain a h host p i fd name :
  rv a = Place (TStruct host) p →
  targetIndex (data a) = [i] →
  structFields host !! i = Some fd →
  fdType fd = TStruct name →
  Collection a h
  = (Panic "reflect: call of reflect.Value.IsNil on struct Value", h).
Proof.
  intros Hrv Hidx Hfd Ht.
  unfold Collection, valueIsNil.
  rewrite bind_eq, (target_field _ _ _ _ _ _ Hrv Hidx Hfd). rewrite Ht.
  by mrun.
Qed.

Lemma Collection_nil a h host p i fd name :
  rv a = Place (TStruct host) p →
  targetIndex (data a) = [i] →
  structFields host !! i = Some fd →
  fdType fd = TPtr (TStruct name) →
  load h (fieldAddr p i) = Some (VPtr None) →
  (Collection a h).1 = Panic "reflect.MakeSlice of non-slice type".
Proof.
  intros Hrv Hidx Hfd Ht Hnil.
  destruct (allocate_target h (fieldAddr p i) (zeroValue (TStruct name)) Hnil)
    as (h' & Hst & Hld & _).
  unfold Collection, valueIsNil.
  rewrite bind_eq, (target_field _ _ _ _ _ _ Hrv Hidx Hfd). rewrite Ht.
  mrun. erewrite contents_place by exact Hnil. mrun.
  unfold storeAt. rewrite Hst. mrun.
  erewrite contents_place by exact Hld. by mrun.
Qed.

End HandleFacts.

Section HandleClaims.
Context `{RT : Runtime} `{RC : Records}.

(** The handles [newAssociation] builds for a record at [p] have the shape
    the statements below assume. *)
Lemma newAssociation_shape host p i (h : Heap) (c c' : Cache) a :
  cacheCoherent c →
  newAssociation (Place (TStruct host) p) i h c = (Ok a, c') →
  rv a = Place (TStruct host) p
  ∧ targetIndex (data a) = [i]
  ∧ is_Some (structFields host !! i)
  ∧ resolve (TStruct host) i = Ok (data a).
Proof.
  intros Hc. unfold newAssociation. simpl.
  pose proof (extract_result (TStruct host) i c Hc) as Hres.
  destruct (extractAssociationData (TStruct host) i c) as [[d|msg] c1]; [|done].
  intros [= <- <-]. simpl in *. symmetry in Hres.
  destruct (resolve_ok_field _ _ _ Hres) as [sf Hsf].
  destruct (resolve_cases _ _ _ Hsf)
    as [[_ Hp]|[(_ & _ & Hp)|(d' & rid & fid & _ & _ & Hok & _ & Hti & _)]];
    try congruence.
  rewrite Hres in Hok. injection Hok as <-.
  unfold typeField in Hsf.
  destruct (structFields host !! i) as [fd|] eqn:Hfd; [|done].
  injection Hsf as <-. simpl in Hti. by repeat split.
Qed.


(** C6, as the code has it. On a [BelongsTo] or [HasOne] association whose
    target field is a struct (zero-valued or not) or a nil pointer to a
    struct, [Document] and [IsZero] complete; [ForeignValue] completes when
    the target field is a struct. *)
Theorem singular_handle_totality (a : Association) (h : Heap) host p i fd name :
  typ (data a) = BelongsTo ∨ typ (data a) = HasOne →
  rv a = Place (TStruct host) p →
  targetIndex (data a) = [i] →
  structFields host !! i = Some fd →
  (∀ x, fdType fd = TStruct name →
        load h (fieldAddr p i) = Some x →
        is_ok (Document a h).1
        ∧ is_ok (IsZero a h).1
        ∧ (∀ fkd v,
             structFields name !! foreignIndex (data a) = Some fkd →
             resolvedValue h (fdType fkd)
               (fieldAddr (fieldAddr p i) (foreignIndex (data a))) = Some v →
             is_ok (ForeignValue a h).1))
  ∧ (fdType fd = TPtr (TStruct name) →
     load h (fieldAddr p i) = Some (VPtr None) →
     is_ok (Document a h).1 ∧ is_ok (IsZero a h).1).
Proof.
  intros Hone Hrv Hidx Hfd. split.
  - intros x Ht Hx. split; [|split].
    + by erewrite Document_plain.
    + by eapply IsZero_total.
    + intros fkd v Hfk Hv.
      erewrite ForeignValue_target; try done.
      unfold targetInstance. by rewrite Ht.
  - intros Ht Hnil. split.
    + destruct (allocate_target h (fieldAddr p i) (zeroValue (TStruct name)) Hnil)
        as (h' & Hst & Hld & _).
      by erewrite Document_nil.
    + by eapply IsZero_total.
Qed.

(** C8. [Document] on a singular association. On a nil pointer it
    allocates a zero-valued target, stores its address in the field, which
    is non-nil afterwards, and returns that record with [false]; on a set
    pointer it returns the record pointed to, and on a struct held in the
    field the struct itself, each with what [Persisted] says of the record,
    and leaves the memory as it is. *)
Theorem document_allocates_or_wraps (a : Association) (h : Heap) host p i fd name :
  rv a = Place (TStruct host) p →
  targetIndex (data a) = [i] →
  structFields host !! i = Some fd →
  (fdType fd = TPtr (TStruct name) →
   load h (fieldAddr p i) = Some (VPtr None) →
   ∃ h', Document a h
         = (Ok (mkDocument (TStruct name) (mkPointer (fresh (dom h)) []), false), h')
         ∧ store (<[fresh (dom h) := zeroValue (TStruct name)]> h) (fieldAddr p i)
             (VPtr (Some (mkPointer (fresh (dom h)) []))) = Some h'
         ∧ load h' (fieldAddr p i) = Some (VPtr (Some (mkPointer (fresh (dom h)) [])))
         ∧ load h' (mkPointer (fresh (dom h)) []) = Some (zeroValue (TStruct name)))
  ∧ (∀ q x,
       fdType fd = TPtr (TStruct name) →
       load h (fieldAddr p i) = Some (VPtr (Some q)) →
       load h q = Some x →
       Document a h = (Ok (mkDocument (TStruct name) q, persisted (TStruct name) x), h))
  ∧ (∀ x,
       fdType fd = TStruct name →
       load h (fieldAddr p i) = Some x →
       Document a h
       = (Ok (mkDocument (TStruct name) (fieldAddr p i), persisted (TStruct name) x), h)).
Proof.
  intros Hrv Hidx Hfd. split; [|split].
  - intros Ht Hnil.
    destruct (allocate_target h (fieldAddr p i) (zeroValue (TStruct name)) Hnil)
      as (h' & Hst & Hld & Hnew).
    exists h'. split; [|done]. by eapply Document_nil.
  - intros q x Ht Hq Hx. by eapply Document_set.
  - intros x Ht Hx. by eapply Document_plain.
Qed.

End HandleClaims.

(** * Further properties of the resolver *)

Section TagFacts.

Lemma splitColon_plain s : hasColon s = false → splitColon s = [s].
Proof.
  induction s as [|c s IH]; [done|]. simpl.
  intros [Hc Hs]%orb_false_iff. rewrite Hc. by rewrite (IH Hs).
Qed.

Lemma splitColon_at a b :
  hasColon a = false → splitColon (a ++ String colon b) = a :: splitColon b.
Proof.
  induction a as [|c a IH]; intros H.
  - done.
  - simpl in H. apply orb_false_iff in H as [Hc Ha].
    change (String c a ++ String colon b) with (String c (a ++ String colon b)).
    simpl. rewrite Hc. by rewrite (IH Ha).
Qed.

Lemma splitColon_two s : hasColon s = true → ∃ x y rest, splitColon s = x :: y :: rest.
Proof.
  induction s as [|c s IH]; [done|]. simpl.
  destruct (bool_decide (c = colon)) eqn:Hc; simpl.
  - intros _. destruct s as [|c' s']; simpl; [by eexists _, _, _|].
    destruct (bool_decide (c' = colon)); [by eexists _, _, _|].
    destruct (splitColon s'); by eexists _, _, _.
  - intros H. destruct (IH H) as (x & y & rest & ->). by eexists _, _, _.
Qed.

(** X1. [getAssocField] splits the tag at its colon: a value without colon
    is the key and the through key is empty; [key:through] gives both; with
    a second colon anywhere the through key is dropped and only the first
    part is kept. *)
Theorem getAssocField_parse (tag : StructTag) (field a b : string) :
  hasColon a = false →
  (tagGet tag field = a → getAssocField tag field = (a, ""))
  ∧ (tagGet tag field = a ++ String colon b → hasColon b = false →
     getAssocField tag field = (a, b))
  ∧ (tagGet tag field = a ++ String colon b → hasColon b = true →
     getAssocField tag field = (a, "")).
Proof.
  intros Ha. unfold getAssocField. repeat split.
  - intros ->. by rewrite splitColon_plain.
  - intros -> Hb. by rewrite splitColon_at, splitColon_plain.
  - intros -> Hb. rewrite splitColon_at by done.
    by destruct (splitColon_two b Hb) as (x & y & rest & ->).
Qed.

End TagFacts.

Section ResolverMore.
Context `{RT : Runtime}.

Lemma keyNames_explicit rt sf :
  (getAssocField (sfTag sf) "ref").1 ≠ "" →
  (getAssocField (sfTag sf) "fk").1 ≠ "" →
  keyNames rt sf = explicitKeys sf
  ∧ throughNames rt sf
    = ((getAssocField (sfTag sf) "ref").2, (getAssocField (sfTag sf) "fk").2).
Proof.
  intros Hr Hf. unfold keyNames, throughNames, explicitKeys. simpl.
  by rewrite (bool_decide_eq_false_2 _ Hr), (bool_decide_eq_false_2 _ Hf).
Qed.

(** X2. When both [ref] and [fk] carry a key, no convention applies: the
    descriptor has exactly these keys, the resolution succeeds exactly when
    they are in the two indexes, and the through keys of a [ManyToMany]
    descriptor are the parts after the colons, empty when the tags have
    none: no snake-cased default is filled in. *)
Theorem explicit_keys_used rt i sf (c : Cache) :
  cacheCoherent c →
  typeField rt i = Ok sf →
  (getAssocField (sfTag sf) "ref").1 ≠ "" →
  (getAssocField (sfTag sf) "fk").1 ≠ "" →
  (is_ok (extractAssociationData rt i c).1
   ↔ is_Some (index (extractDocumentData rt true)
                !! (getAssocField (sfTag sf) "ref").1)
     ∧ is_Some (index (extractDocumentData (unwrapType (sfType sf)) true)
                  !! (getAssocField (sfTag sf) "fk").1))
  ∧ ∀ d, (extractAssociationData rt i c).1 = Ok d →
      referenceField d = (getAssocField (sfTag sf) "ref").1
      ∧ foreignField d = (getAssocField (sfTag sf) "fk").1
      ∧ (typ d = ManyToMany →
         referenceThrough d = (getAssocField (sfTag sf) "ref").2
         ∧ foreignThrough d = (getAssocField (sfTag sf) "fk").2).
Proof.
  intros Hc Hsf Hr Hf. rewrite (extract_result _ _ _ Hc).
  destruct (keyNames_explicit rt sf Hr Hf) as [Hk Ht].
  destruct (resolve_cases rt i sf Hsf)
    as [[Hnr Hres]|[(Hnr & Hnf & Hres)|(d & rid & fid & Hir & Hif & Hres & _ & _ & Hrf & _ & Hff & _)]];
    rewrite Hk in *; unfold explicitKeys in *; simpl in *; rewrite Hres.
  - split; [|done]. split; [done|]. intros [[x Hx] _]. congruence.
  - split; [|done]. split; [done|]. intros [_ [x Hx]]. congruence.
  - split.
    + split; [|done]. intros _. split; by eexists.
    + intros d' [= <-]. split; [done|]. split; [done|]. intros Hm.
      destruct (resolve_through rt i sf d Hsf Hres) as [Hmany _].
      destruct (Hmany Hm) as (_ & _ & -> & ->). by rewrite Ht.
Qed.

(** X3. The type of a resolved descriptor follows from the shape of the
    field and the lengths of the key names alone: for a field that is not a
    sequence it is [BelongsTo] exactly when the reference key is strictly
    longer than the foreign key and [HasOne] otherwise (equal lengths
    included); for a sequence it is [ManyToMany] exactly when a [through]
    tag is present and [HasMany] otherwise. *)
Theorem cardinality_by_shape rt i sf (c : Cache) d :
  cacheCoherent c →
  typeField rt i = Ok sf →
  (extractAssociationData rt i c).1 = Ok d →
  (isSliceField (sfType sf) = false →
   (typ d = BelongsTo
    ↔ (String.length (foreignField d) < String.length (referenceField d))%nat)
   ∧ (typ d = HasOne
      ↔ (String.length (referenceField d) ≤ String.length (foreignField d))%nat))
  ∧ (isSliceField (sfType sf) = true →
     (typ d = ManyToMany ↔ tagGet (sfTag sf) "through" ≠ "")
     ∧ (typ d = HasMany ↔ tagGet (sfTag sf) "through" = "")).
Proof.
  intros Hc Hsf. rewrite (extract_result _ _ _ Hc). intros Hres.
  destruct (resolve_cases rt i sf Hsf)
    as [[_ Hp]|[(_ & _ & Hp)|(d' & rid & fid & _ & _ & Hok & Ht & _ & Hrf & _ & Hff & _)]];
    try congruence.
  rewrite Hres in Hok. injection Hok as <-.
  rewrite Ht, Hrf, Hff. unfold cardinality. split; intros ->.
  - destruct (Nat.ltb_spec (String.length (keyNames rt sf).2)
                           (String.length (keyNames rt sf).1)).
    + split; split; try done; lia.
    + split; split; try done; lia.
  - destruct (decide (tagGet (sfTag sf) "through" = "")) as [He|Hn].
    + rewrite (bool_decide_eq_true_2 _ He). simpl. split; split; done.
    + rewrite (bool_decide_eq_false_2 _ Hn). simpl. split; split; done.
Qed.


(** X4. A [through] tag on a field that is not a sequence, with [ref] or
    [fk] missing: the keys are [id] and [id], the resolution succeeds
    exactly when both indexes have [id], and the descriptor is a [HasOne]
    with no through table. *)
Theorem through_on_singular rt i sf (c : Cache) :
  cacheCoherent c →
  typeField rt i = Ok sf →
  tagGet (sfTag sf) "ref" = "" ∨ tagGet (sfTag sf) "fk" = "" →
  tagGet (sfTag sf) "through" ≠ "" →
  isSliceField (sfType sf) = false →
  (is_ok (extractAssociationData rt i c).1
   ↔ is_Some (index (extractDocumentData rt true) !! "id")
     ∧ is_Some (index (extractDocumentData (unwrapType (sfType sf)) true) !! "id"))
  ∧ ∀ d, (extractAssociationData rt i c).1 = Ok d →
      typ d = HasOne ∧ referenceField d = "id" ∧ foreignField d = "id"
      ∧ through d = "".
Proof.
  intros Hc Hsf Hun Hthr Hone. rewrite (extract_result _ _ _ Hc).
  assert (Hkeys : keyNames rt sf = ("id", "id")).
  { rewrite keyNames_inferred by done. unfold inferKeys.
    by rewrite (bool_decide_eq_false_2 _ Hthr). }
  destruct (resolve_cases rt i sf Hsf)
    as [[Hr Hres]|[(Hr & Hf & Hres)|(d & rid & fid & Hr & Hf & Hres & Ht & _ & Hrf & _ & Hff & _)]];
    rewrite Hkeys in *; simpl in *; rewrite Hres.
  - split; [|done]. split; [done|]. intros [[x Hx] _]. congruence.
  - split; [|done]. split; [done|]. intros [_ [x Hx]]. congruence.
  - split.
    + split; [|done]. intros _. split; by eexists.
    + intros d' [= <-]. unfold cardinality in Ht. rewrite Hone in Ht. simpl in Ht.
      repeat split; try done.
      destruct (resolve_through rt i sf d Hsf Hres) as [_ Hne].
      apply Hne. by rewrite Ht.
Qed.

(** X5. The keys of a has-many: at a sequence-typed field without
    [through] tag and with [ref] or [fk] missing, the descriptor is a
    [HasMany] whose keys are [id] and [<snake_case(hostType)>_id], unless
    the host's index has [<fieldName>_id], in which case they are
    [<fieldName>_id] and [id]. *)
Theorem has_many_keys rt i sf (c : Cache) :
  cacheCoherent c →
  typeField rt i = Ok sf →
  tagGet (sfTag sf) "ref" = "" ∨ tagGet (sfTag sf) "fk" = "" →
  tagGet (sfTag sf) "through" = "" →
  isSliceField (sfType sf) = true →
  ∀ d, (extractAssociationData rt i c).1 = Ok d →
    typ d = HasMany
    ∧ (index (extractDocumentData rt true) !! (fieldName sf ++ "_id") = None →
       referenceField d = "id"
       ∧ foreignField d = CamelToSnake (typeName rt) ++ "_id")
    ∧ (is_Some (index (extractDocumentData rt true) !! (fieldName sf ++ "_id")) →
       referenceField d = fieldName sf ++ "_id" ∧ foreignField d = "id").
Proof.
  intros Hc Hsf Hun Hthr Hmany d. rewrite (extract_result _ _ _ Hc). intros Hres.
  destruct (resolve_cases rt i sf Hsf)
    as [[_ Hp]|[(_ & _ & Hp)|(d' & rid & fid & _ & _ & Hok & Ht & _ & Hrf & _ & Hff & _)]];
    try congruence.
  rewrite Hres in Hok. injection Hok as <-.
  rewrite keyNames_inferred in * by done.
  unfold inferKeys in *. rewrite Hthr in *. simpl in *.
  split.
  - rewrite Ht. unfold cardinality. by rewrite Hmany, Hthr.
  - split.
    + intros Hn. rewrite bool_decide_eq_false_2 in Hrf, Hff; [done| |].
      * rewrite Hn. by intros [x Hx].
      * rewrite Hn. by intros [x Hx].
    + intros Hy. by rewrite (bool_decide_eq_true_2 _ Hy) in Hrf, Hff.
Qed.

(** X6. The positions of a resolved descriptor agree with its names: the
    target path is the field position, the reference position is where the
    host's index has the reference field, the foreign position is where the
    target's index has the foreign field, and [autosave] is set exactly
    when the tag reads [true]. *)
Theorem descriptor_positions rt i sf (c : Cache) d :
  cacheCoherent c →
  typeField rt i = Ok sf →
  (extractAssociationData rt i c).1 = Ok d →
  targetIndex d = [i]
  ∧ index (extractDocumentData rt true) !! referenceField d = Some (referenceIndex d)
  ∧ index (extractDocumentData (unwrapType (sfType sf)) true) !! foreignField d
    = Some (foreignIndex d)
  ∧ autosave d = bool_decide (tagGet (sfTag sf) "autosave" = "true").
Proof.
  intros Hc Hsf. rewrite (extract_result _ _ _ Hc). intros Hres.
  destruct (resolve_cases rt i sf Hsf)
    as [[Hn Hp]|[(_ & Hn & Hp)|(d' & rid & fid & Hr & Hf & Hok & _)]];
    try congruence.
  destruct (resolve_found rt i sf rid fid Hsf Hr Hf)
    as (d'' & Hok' & _ & Hti & Hrf & Hri & Hff & Hfi & Ha).
  rewrite Hres in Hok'. injection Hok' as <-.
  rewrite Hrf, Hri, Hff, Hfi, Hti, Ha.
  unfold typeField in Hsf. destruct rt; try done.
  destruct (structFields name !! i); [|done]. by injection Hsf as <-.
Qed.

(** X7. What a resolution does to the cache: nothing when it panics;
    nothing to the entries of other keys; nothing to an entry already
    there; and after a success the entry of its key is the descriptor it
    returned. *)
Theorem cache_frame rt i (c : Cache) :
  (is_panic (extractAssociationData rt i c).1 →
   (extractAssociationData rt i c).2 = c)
  ∧ (∀ k, k ≠ mkKey rt i → (extractAssociationData rt i c).2 !! k = c !! k)
  ∧ (∀ k d, c !! k = Some d → (extractAssociationData rt i c).2 !! k = Some d)
  ∧ (∀ d, (extractAssociationData rt i c).1 = Ok d →
          (extractAssociationData rt i c).2 !! mkKey rt i = Some d).
Proof.
  repeat split.
  - destruct (c !! mkKey rt i) as [d|] eqn:Hk.
    + by rewrite (extract_hit _ _ _ _ Hk).
    + rewrite (extract_miss _ _ _ Hk). by destruct (resolve rt i).
  - intros k Hk. destruct (extract_cache rt i c) as [->|(d & _ & _ & ->)]; [done|].
    by rewrite lookup_insert_ne.
  - intros k d. apply extract_keeps.
  - apply extract_stores.
Qed.

(** X8. A position past the last field of the host, and a host that is
    not a struct, make the resolution panic with the message of [reflect],
    which names a host that is not a struct as [rt.String()] prints it
    ([*rel.User] for a pointer to a user), and the cache is as before. *)
Theorem invalid_position rt i (c : Cache) :
  cacheCoherent c →
  (∀ name, rt = TStruct name → (length (structFields name) ≤ i)%nat →
     extractAssociationData rt i c = (Panic "reflect: Field index out of bounds", c))
  ∧ (kindOf rt ≠ KStruct →
     extractAssociationData rt i c
     = (Panic ("reflect: Field of non-struct type " ++ typeString rt), c)).
Proof.
  intros Hc.
  assert (Hgen : ∀ msg, typeField rt i = Panic msg →
                        extractAssociationData rt i c = (Panic msg, c)).
  { intros msg Hf. pose proof (resolve_no_field _ _ _ Hf) as Hr.
    destruct (c !! mkKey rt i) as [d|] eqn:Hk.
    - apply Hc in Hk. congruence.
    - by rewrite (extract_miss _ _ _ Hk), Hr. }
  split.
  - intros name -> Hlen. apply Hgen. unfold typeField.
    by rewrite (lookup_ge_None_2 _ _ Hlen).
  - intros Hk. apply Hgen. by destruct rt as [[]| | |].
Qed.

(** X9. After any run of resolutions from the empty cache, the cache
    holds exactly the keys of the run whose resolution succeeds, each with
    the descriptor the inference computes for it. *)
Theorem cache_after_run (keys : list associationKey) :
  cacheCoherent (resolveAll keys ∅)
  ∧ (∀ k d, resolveAll keys ∅ !! k = Some d →
            k ∈ keys ∧ resolve (key_rt k) (key_index k) = Ok d)
  ∧ (∀ k d, k ∈ keys → resolve (key_rt k) (key_index k) = Ok d →
            resolveAll keys ∅ !! k = Some d).
Proof.
  assert (Hgen : ∀ (c : Cache),
    cacheCoherent c →
    (∀ k d, resolveAll keys c !! k = Some d → c !! k = Some d ∨ k ∈ keys)
    ∧ (∀ k d, k ∈ keys → resolve (key_rt k) (key_index k) = Ok d →
              resolveAll keys c !! k = Some d)).
  { induction keys as [|k0 keys IH]; intros c Hc.
    - split; [by left|]. intros k d Hin. by apply elem_of_nil in Hin.
    - destruct k0 as [rt0 i0]. simpl.
      destruct (IH _ (extract_coherent rt0 i0 c Hc)) as [IH1 IH2]. split.
      + intros k d Hk. destruct (IH1 k d Hk) as [Hin|Hin].
        * destruct (extract_cache rt0 i0 c) as [Heq|(d' & _ & _ & Heq)];
            rewrite Heq in Hin; [by left|].
          destruct (decide (mkKey rt0 i0 = k)) as [<-|Hne].
          -- right. apply elem_of_cons. by left.
          -- rewrite lookup_insert_ne in Hin by done. by left.
        * right. apply elem_of_cons. by right.
      + intros k d Hin Hr. apply elem_of_cons in Hin as [->|Hin].
        * apply resolveAll_keeps. simpl. apply extract_stores.
          by rewrite (extract_result _ _ _ Hc).
        * by apply IH2. }
  split; [apply resolveAll_coherent, cacheCoherent_empty|].
  destruct (Hgen ∅ cacheCoherent_empty) as [H1 H2]. split; [|done].
  intros k d Hk. split.
  - destruct (H1 k d Hk) as [He|]; [|done]. by rewrite lookup_empty in He.
  - destruct k as [rt i]. by apply (resolveAll_coherent keys ∅ cacheCoherent_empty).
Qed.

(** X10. The shape tests on the type of a field: it counts as a sequence
    exactly when it is a slice or a pointer to a slice (a pointer to a
    pointer to a slice does not); the target type is found under any
    nesting of pointers and slices and is itself neither. *)
Theorem field_shape (t : rtype) :
  (isSliceField t = true ↔ ∃ e, t = TSlice e ∨ t = TPtr (TSlice e))
  ∧ kindOf (unwrapType t) ≠ KPtr ∧ kindOf (unwrapType t) ≠ KSlice
  ∧ unwrapType (TPtr t) = unwrapType t ∧ unwrapType (TSlice t) = unwrapType t.
Proof.
  split.
  - split.
    + destruct t as [[]|name|[[]|name|e|e]|e]; try done; intros _; eauto.
    + by intros [e [-> | ->]].
  - induction t as [[]|name|e IH|e IH]; simpl; try done.
Qed.

End ResolverMore.

(** * Further properties of the handle *)

Section HandleMore.
Context `{RT : Runtime} `{RC : Records}.

#[local] Arguments contents : simpl never.
#[local] Arguments load : simpl never.
#[local] Arguments store : simpl never.
#[local] Arguments fieldAddr : simpl never.

Ltac mstep :=
  repeat first [ rewrite bind_eq
               | rewrite bool_decide_eq_true_2 by done
               | progress simpl ].

Lemma readOnly_ret {A} (a : A) : readOnly (mret a).
Proof. by intros h. Qed.

Lemma readOnly_panic {A} msg : readOnly (@panic A msg).
Proof. by intros h. Qed.

Lemma readOnly_bind {A B} (m : M A) (f : A → M B) :
  readOnly m → (∀ a, readOnly (f a)) → readOnly (m ≫= f).
Proof.
  intros Hm Hf h. rewrite bind_eq. specialize (Hm h).
  destruct (m h) as [[a|msg] h1]; simpl in *; subst; [apply Hf|done].
Qed.

Lemma readOnly_contents v : readOnly (contents v).
Proof.
  destruct v as [|t p|t x]; try done.
  intros h. unfold contents. rewrite bind_eq. simpl. by destruct (load h p).
Qed.

Lemma readOnly_valueType v : readOnly (valueType v).
Proof. by destruct v. Qed.

Lemma readOnly_valueIsNil v : readOnly (valueIsNil v).
Proof.
  unfold valueIsNil. destruct (valueKind v); try apply readOnly_panic.
  - apply readOnly_bind; [apply readOnly_contents|].
    intros [| | |[q|]| |]; apply readOnly_ret.
  - apply readOnly_bind; [apply readOnly_contents|].
    intros [| | | |[items|]|]; apply readOnly_ret.
Qed.

Lemma readOnly_valueElem v : readOnly (valueElem v).
Proof.
  destruct v as [|[]|[]]; try apply readOnly_panic.
  - apply readOnly_bind; [apply readOnly_contents|].
    intros [| | |[q|]| |]; apply readOnly_ret.
  - apply readOnly_bind; [apply readOnly_contents|].
    intros [| | |[q|]| |]; apply readOnly_ret.
Qed.

Lemma readOnly_valueField v i : readOnly (valueField v i).
Proof.
  destruct v as [|[]|[] x]; try apply readOnly_panic.
  - simpl. destruct (structFields name !! i); [apply readOnly_ret|apply readOnly_panic].
  - simpl. destruct x; try apply readOnly_panic.
    destruct (structFields name !! i), (fields !! i);
      first [apply readOnly_ret|apply readOnly_panic].
Qed.

Lemma readOnly_loop index : ∀ first v, readOnly (fieldByIndexLoop first v index).
Proof.
  induction index as [|x rest IH]; intros first v; [apply readOnly_ret|].
  simpl. apply readOnly_bind.
  - destruct first; [apply readOnly_ret|].
    destruct v as [|[| |[]|]|[| |[]|]]; try apply readOnly_ret.
    + apply readOnly_bind; [apply readOnly_valueIsNil|].
      intros []; [apply readOnly_panic|apply readOnly_valueElem].
    + apply readOnly_bind; [apply readOnly_valueIsNil|].
      intros []; [apply readOnly_panic|apply readOnly_valueElem].
  - intros v'. apply readOnly_bind; [apply readOnly_valueField|]. intros f. apply IH.
Qed.

Lemma readOnly_valueFieldByIndex v index : readOnly (valueFieldByIndex v index).
Proof.
  unfold valueFieldByIndex.
  destruct index as [|x [|y rest]].
  - case_bool_decide; [apply readOnly_loop|apply readOnly_panic].
  - apply readOnly_valueField.
  - case_bool_decide; [apply readOnly_loop|apply readOnly_panic].
Qed.

Lemma readOnly_valueInterface v : readOnly (valueInterface v).
Proof.
  apply readOnly_bind; [apply readOnly_valueType|]. intros t.
  apply readOnly_bind; [apply readOnly_contents|]. intros x. apply readOnly_ret.
Qed.

Lemma readOnly_indirect v : readOnly (indirect v).
Proof.
  unfold indirect. case_bool_decide; [|apply readOnly_valueInterface].
  apply readOnly_bind; [apply readOnly_valueIsNil|].
  intros []; [apply readOnly_ret|].
  apply readOnly_bind; [apply readOnly_valueElem|]. intros e.
  apply readOnly_valueInterface.
Qed.

(** X11. [ForeignValue], [ReferenceValue] and [IsZero] never write: the
    memory after the call is the memory before it, whatever the handle and
    whether the call returns or panics. *)
Theorem accessors_read_only (a : Association) :
  readOnly (ForeignValue a) ∧ readOnly (ReferenceValue a) ∧ readOnly (IsZero a).
Proof.
  repeat split.
  - unfold ForeignValue.
    destruct (bool_decide _ || bool_decide _); [apply readOnly_panic|].
    apply readOnly_bind; [apply readOnly_valueFieldByIndex|]. intros v.
    apply readOnly_bind.
    { case_bool_decide; [apply readOnly_valueElem|apply readOnly_ret]. }
    intros v'. apply readOnly_bind; [apply readOnly_valueField|].
    intros f. apply readOnly_indirect.
  - unfold ReferenceValue.
    apply readOnly_bind; [apply readOnly_valueField|]. intros f.
    apply readOnly_indirect.
  - unfold IsZero.
    apply readOnly_bind; [apply readOnly_valueFieldByIndex|]. intros v.
    apply readOnly_bind.
    { unfold reflectIndirect.
      case_bool_decide; [apply readOnly_valueElem|apply readOnly_ret]. }
    intros v'. intros h. reflexivity.
Qed.


Lemma store_root (h : Heap) l old new :
  h !! l = Some old → store h (mkPointer l []) new = Some (<[l := new]> h).
Proof. intros H. unfold store. simpl. by rewrite H. Qed.

(** X12. [Collection] on a slice held in the field. A nil slice is replaced
    by an empty one, in place, and reported as not loaded; a second call
    then reports it as loaded. A slice that is not nil, empty or not, is
    wrapped as it is and reported as loaded. *)
Theorem collection_of_slice (a : Association) (h : Heap) host p i fd e :
  rv a = Place (TStruct host) p →
  targetIndex (data a) = [i] →
  structFields host !! i = Some fd →
  fdType fd = TSlice e →
  (load h (fieldAddr p i) = Some (VSlice None) →
   ∃ h', Collection a h = (Ok (mkCollection (TSlice e) (fieldAddr p i), false), h')
         ∧ store h (fieldAddr p i) (VSlice (Some [])) = Some h'
         ∧ load h' (fieldAddr p i) = Some (VSlice (Some []))
         ∧ Collection a h' = (Ok (mkCollection (TSlice e) (fieldAddr p i), true), h'))
  ∧ (∀ items, load h (fieldAddr p i) = Some (VSlice (Some items)) →
       Collection a h = (Ok (mkCollection (TSlice e) (fieldAddr p i), true), h)).
Proof.
  intros Hrv Hidx Hfd Ht.
  assert (Hset : ∀ h0 items, load h0 (fieldAddr p i) = Some (VSlice (Some items)) →
    Collection a h0 = (Ok (mkCollection (TSlice e) (fieldAddr p i), true), h0)).
  { intros h0 items Hx. unfold Collection, valueIsNil, NewCollection.
    rewrite bind_eq, (target_field _ _ _ _ _ _ Hrv Hidx Hfd). rewrite Ht. mstep.
    erewrite contents_place by exact Hx. by mstep. }
  split; [|apply Hset].
  intros Hnil.
  destruct (store_load h (fieldAddr p i) (VSlice (Some [])) _ Hnil)
    as (h' & Hst & Hld & _).
  exists h'. split; [|split; [done|split; [done|by eapply Hset]]].
  unfold Collection, valueIsNil, NewCollection.
  rewrite bind_eq, (target_field _ _ _ _ _ _ Hrv Hidx Hfd). rewrite Ht. mstep.
  erewrite contents_place by exact Hnil. mstep.
  unfold storeAt. rewrite Hst. by mstep.
Qed.

(** X13. [Collection] on a pointer to a slice. A nil pointer gets a new
    block holding an empty slice and is reported as not loaded; a second
    call then reports it as loaded. A set pointer is wrapped and reported
    as loaded whatever it points to, and nothing is written. *)
Theorem collection_of_slice_pointer (a : Association) (h : Heap) host p i fd e :
  rv a = Place (TStruct host) p →
  targetIndex (data a) = [i] →
  structFields host !! i = Some fd →
  fdType fd = TPtr (TSlice e) →
  (load h (fieldAddr p i) = Some (VPtr None) →
   ∃ h', Collection a h
         = (Ok (mkCollection (TSlice e) (mkPointer (fresh (dom h)) []), false), h')
         ∧ load h' (fieldAddr p i) = Some (VPtr (Some (mkPointer (fresh (dom h)) [])))
         ∧ load h' (mkPointer (fresh (dom h)) []) = Some (VSlice (Some []))
         ∧ Collection a h'
           = (Ok (mkCollection (TSlice e) (mkPointer (fresh (dom h)) []), true), h'))
  ∧ (∀ q, load h (fieldAddr p i) = Some (VPtr (Some q)) →
       Collection a h = (Ok (mkCollection (TSlice e) q, true), h)).
Proof.
  intros Hrv Hidx Hfd Ht.
  assert (Hset : ∀ h0 q, load h0 (fieldAddr p i) = Some (VPtr (Some q)) →
    Collection a h0 = (Ok (mkCollection (TSlice e) q, true), h0)).
  { intros h0 q Hx. unfold Collection, valueIsNil, NewCollection.
    rewrite bind_eq, (target_field _ _ _ _ _ _ Hrv Hidx Hfd). rewrite Ht. mstep.
    erewrite contents_place by exact Hx. mstep.
    erewrite contents_place by exact Hx. by mstep. }
  split; [|apply Hset].
  intros Hnil. set (l := fresh (dom h)).
  destruct (allocate_target h (fieldAddr p i) (zeroValue (TSlice e)) Hnil)
    as (h1 & Hst & Hld & Hnew). fold l in Hst, Hld, Hnew.
  assert (Hl : block (fieldAddr p i) ≠ l) by (by eapply load_fresh).
  assert (Hb : h1 !! l = Some (zeroValue (TSlice e))).
  { unfold load in Hnew. simpl in Hnew. by destruct (h1 !! l). }
  pose proof (store_root h1 l _ (VSlice (Some [])) Hb) as Hst2.
  assert (Hld2 : load (<[l := VSlice (Some [])]> h1) (fieldAddr p i)
                 = Some (VPtr (Some (mkPointer l [])))).
  { by rewrite load_alloc. }
  exists (<[l := VSlice (Some [])]> h1).
  split; [|split; [done|split; [apply load_new|by apply Hset]]].
  unfold Collection, valueIsNil, NewCollection.
  rewrite bind_eq, (target_field _ _ _ _ _ _ Hrv Hidx Hfd). rewrite Ht. mstep.
  erewrite contents_place by exact Hnil. mstep.
  unfold storeAt. fold l. rewrite Hst. mstep.
  erewrite contents_place by exact Hld. mstep.
  unfold storeAt. rewrite Hst2. mstep.
  erewrite contents_place by exact Hld2. by mstep.
Qed.


Lemma updValue_sibling v path i j x v' :
  updValue v (path ++ [i]) x = Some v' → j ≠ i →
  subValue v' (path ++ [j]) = subValue v (path ++ [j]).
Proof.
  revert v v'. induction path as [|k rest IH]; intros v v' Hu Hne; simpl in *.
  - destruct v; try done. destruct (fields !! i) as [f|] eqn:Hf; [|done].
    injection Hu as <-. simpl. by rewrite list_lookup_insert_ne.
  - destruct v; try done. destruct (fields !! k) as [f|] eqn:Hf; [|done].
    destruct (updValue f (rest ++ [i]) x) as [f'|] eqn:Hu'; [|done].
    injection Hu as <-. simpl.
    rewrite list_lookup_insert_eq by (by eapply lookup_lt_Some).
    by apply IH.
Qed.

(** X14. What the allocation of [Document] leaves alone: on a nil pointer
    target, the blocks other than the host's and the new one read as
    before, the other fields of the host read as before, and exactly one
    block is added to the memory. *)
Theorem document_frame (a : Association) (h : Heap) host p i fd name :
  rv a = Place (TStruct host) p →
  targetIndex (data a) = [i] →
  structFields host !! i = Some fd →
  fdType fd = TPtr (TStruct name) →
  load h (fieldAddr p i) = Some (VPtr None) →
  (∀ q, block q ≠ block p → block q ≠ fresh (dom h) →
        load (Document a h).2 q = load h q)
  ∧ (∀ j, j ≠ i →
          load (Document a h).2 (fieldAddr p j) = load h (fieldAddr p j))
  ∧ dom (Document a h).2 = {[fresh (dom h)]} ∪ dom h.
Proof.
  intros Hrv Hidx Hfd Ht Hnil. set (l := fresh (dom h)).
  destruct (allocate_target h (fieldAddr p i) (zeroValue (TStruct name)) Hnil)
    as (h' & Hst & Hld & Hnew). fold l in Hst, Hld, Hnew.
  rewrite (Document_nil a h host p i fd name h' Hrv Hidx Hfd Ht Hnil Hst Hld).
  simpl.
  assert (Hl : block p ≠ l) by (by eapply (load_fresh h (fieldAddr p i))).
  unfold store in Hst. simpl in Hst. rewrite lookup_insert_ne in Hst by done.
  unfold load in Hnil. simpl in Hnil.
  destruct (h !! block p) as [v|] eqn:Hv; [|done].
  destruct (updValue v (path p ++ [i]) (VPtr (Some (mkPointer l [])))) as [v'|] eqn:Hu;
    [|done].
  injection Hst as <-. repeat split.
  - intros q Hq Hq'. unfold load. by rewrite !lookup_insert_ne.
  - intros j Hj. unfold load. simpl.
    rewrite lookup_insert_eq, Hv. by eapply updValue_sibling.
  - rewrite !dom_insert_L.
    assert (Hin : block p ∈ dom h) by (apply elem_of_dom; by eexists).
    apply set_eq. intros y. rewrite !elem_of_union, !elem_of_singleton.
    split; [intros [->|?]; [by right|done] | by right].
Qed.

(** X15. [Document] twice on a nil pointer target: the second call
    returns the record the first one allocated, allocates nothing, and its
    flag is what [Persisted] says of a zero record. *)
Theorem document_twice (a : Association) (h : Heap) host p i fd name :
  rv a = Place (TStruct host) p →
  targetIndex (data a) = [i] →
  structFields host !! i = Some fd →
  fdType fd = TPtr (TStruct name) →
  load h (fieldAddr p i) = Some (VPtr None) →
  ∃ doc h',
    Document a h = (Ok (doc, false), h')
    ∧ Document a h'
      = (Ok (doc, persisted (TStruct name) (zeroValue (TStruct name))), h').
Proof.
  intros Hrv Hidx Hfd Ht Hnil.
  destruct (allocate_target h (fieldAddr p i) (zeroValue (TStruct name)) Hnil)
    as (h' & Hst & Hld & Hnew).
  eexists _, h'. split.
  - by eapply Document_nil.
  - by eapply Document_set.
Qed.

(** X16. [ForeignValue] after [Document]: on a nil pointer target of a
    [BelongsTo] or [HasOne] association, once [Document] has allocated the
    target, [ForeignValue] returns the zero value the new record has at the
    foreign-key position (for a key of scalar type). *)
Theorem foreign_value_of_allocated (a : Association) (h : Heap)
    host p i fd name fkd b x :
  typ (data a) = BelongsTo ∨ typ (data a) = HasOne →
  rv a = Place (TStruct host) p →
  targetIndex (data a) = [i] →
  structFields host !! i = Some fd →
  fdType fd = TPtr (TStruct name) →
  load h (fieldAddr p i) = Some (VPtr None) →
  structFields name !! foreignIndex (data a) = Some fkd →
  fdType fkd = TBasic b →
  subValue (zeroValue (TStruct name)) [foreignIndex (data a)] = Some x →
  ForeignValue a (Document a h).2 = (Ok (IVal (TBasic b) x), (Document a h).2).
Proof.
  intros Hone Hrv Hidx Hfd Ht Hnil Hfk Hb Hx.
  destruct (allocate_target h (fieldAddr p i) (zeroValue (TStruct name)) Hnil)
    as (h' & Hst & Hld & Hnew).
  rewrite (Document_nil a h host p i fd name h' Hrv Hidx Hfd Ht Hnil Hst Hld).
  simpl.
  eapply ForeignValue_target; try done.
  - unfold targetInstance. by rewrite Ht, Hld.
  - unfold resolvedValue. rewrite Hb.
    assert (load h' (fieldAddr (mkPointer (fresh (dom h)) []) (foreignIndex (data a)))
            = Some x) as ->; [|by destruct b].
    unfold load in *. simpl in *.
    destruct (h' !! fresh (dom h)) as [z|]; [|done].
    injection Hnew as ->. exact Hx.
Qed.

(** X17. [ReferenceValue] returns the current value of the host's field at
    the reference position with pointer indirection resolved, for every
    association type, and panics when the position is past the host's last
    field. *)
Theorem reference_value (a : Association) (h : Heap) host p :
  rv a = Place (TStruct host) p →
  (∀ rfd v,
     structFields host !! referenceIndex (data a) = Some rfd →
     resolvedValue h (fdType rfd) (fieldAddr p (referenceIndex (data a))) = Some v →
     ReferenceValue a h = (Ok v, h))
  ∧ (structFields host !! referenceIndex (data a) = None →
     ReferenceValue a h = (Panic "reflect: Field index out of range", h)).
Proof.
  intros Hrv. unfold ReferenceValue. rewrite Hrv. split.
  - intros rfd v Hf Hv. mstep. rewrite Hf. mstep. by apply indirect_resolved.
  - intros Hf. mstep. by rewrite Hf.
Qed.

(** X18. What [IsZero] hands to [isDeepZero], always with depth 1: the
    zero Value for a nil pointer target, the variable pointed to for a set
    pointer, the field itself otherwise. *)
Theorem is_zero_argument (a : Association) (h : Heap) host p i fd :
  rv a = Place (TStruct host) p →
  targetIndex (data a) = [i] →
  structFields host !! i = Some fd →
  (∀ t, fdType fd = TPtr t →
        load h (fieldAddr p i) = Some (VPtr None) →
        IsZero a h = (Ok (isDeepZero h Invalid 1), h))
  ∧ (∀ t q, fdType fd = TPtr t →
        load h (fieldAddr p i) = Some (VPtr (Some q)) →
        IsZero a h = (Ok (isDeepZero h (Place t q) 1), h))
  ∧ (kindOf (fdType fd) ≠ KPtr →
     IsZero a h = (Ok (isDeepZero h (Place (fdType fd) (fieldAddr p i)) 1), h)).
Proof.
  intros Hrv Hidx Hfd. repeat split.
  - intros t Ht Hnil. unfold IsZero, reflectIndirect.
    rewrite bind_eq, (target_field _ _ _ _ _ _ Hrv Hidx Hfd). rewrite Ht. mstep.
    erewrite contents_place by exact Hnil. by mstep.
  - intros t q Ht Hq. unfold IsZero, reflectIndirect.
    rewrite bind_eq, (target_field _ _ _ _ _ _ Hrv Hidx Hfd). rewrite Ht. mstep.
    erewrite contents_place by exact Hq. by mstep.
  - intros Hk. unfold IsZero, reflectIndirect.
    rewrite bind_eq, (target_field _ _ _ _ _ _ Hrv Hidx Hfd). mstep.
    rewrite bool_decide_eq_false_2 by done. by mstep.
Qed.


(** X19. A handle built for a sequence-typed field has no foreign value:
    [ForeignValue] panics on it in every memory; a handle built for any
    other field is a [BelongsTo] or a [HasOne]. *)
Theorem foreign_value_of_sequence host p i sf (h : Heap) (c c' : Cache) a :
  cacheCoherent c →
  typeField (TStruct host) i = Ok sf →
  newAssociation (Place (TStruct host) p) i h c = (Ok a, c') →
  (isSliceField (sfType sf) = true →
   ∀ h', ForeignValue a h'
         = (Panic "cannot infer foreign value for has many or many to many association",
            h'))
  ∧ (isSliceField (sfType sf) = false →
     Association_Type a = BelongsTo ∨ Association_Type a = HasOne).
Proof.
  intros Hc Hsf Hnew.
  destruct (newAssociation_shape host p i h c c' a Hc Hnew) as (_ & _ & _ & Hres).
  destruct (resolve_cases _ _ _ Hsf)
    as [[_ Hp]|[(_ & _ & Hp)|(d' & rid & fid & _ & _ & Hok & Ht & _)]];
    try congruence.
  rewrite Hres in Hok. injection Hok as <-.
  unfold cardinality in Ht. split; intros Hs; rewrite Hs in Ht.
  - intros h'. unfold ForeignValue, Association_Type. rewrite Ht.
    by destruct (negb (bool_decide (tagGet (sfTag sf) "through" = ""))).
  - unfold Association_Type. rewrite Ht.
    destruct (_ <? _)%nat; auto.
Qed.

(** X20. [newAssociation] on a pointer to a record is [newAssociation] on
    the record; on a nil pointer it panics and leaves the cache. When the
    resolution of the field panics so does the construction, with the same
    message and cache; otherwise the handle carries the resolved descriptor
    and the record, the cache has the descriptor, and the cache invariant
    holds. *)
Theorem handle_construction host p i (h : Heap) (c : Cache) :
  cacheCoherent c →
  newAssociation (Const (TPtr (TStruct host)) (VPtr (Some p))) i h c
  = newAssociation (Place (TStruct host) p) i h c
  ∧ (∀ t, newAssociation (Const (TPtr t) (VPtr None)) i h c
          = (Panic "reflect: call of reflect.Value.Type on zero Value", c))
  ∧ (∀ msg, resolve (TStruct host) i = Panic msg →
            newAssociation (Place (TStruct host) p) i h c = (Panic msg, c))
  ∧ (∀ d, resolve (TStruct host) i = Ok d →
          ∃ c', newAssociation (Place (TStruct host) p) i h c
                = (Ok (mkAssociation d (Place (TStruct host) p)), c')
                ∧ c' !! mkKey (TStruct host) i = Some d
                ∧ cacheCoherent c').
Proof.
  intros Hc. repeat split.
  - intros msg Hr. unfold newAssociation. simpl.
    pose proof (extract_result (TStruct host) i c Hc) as He.
    pose proof (extract_cache (TStruct host) i c) as Hcache.
    destruct (extractAssociationData (TStruct host) i c) as [[d|m] c1]; simpl in *.
    + congruence.
    + destruct Hcache as [->|(d & _ & Hd & _)]; congruence.
  - intros d Hr. unfold newAssociation. simpl.
    pose proof (extract_result (TStruct host) i c Hc) as He.
    pose proof (extract_stores (TStruct host) i c d) as Hs.
    pose proof (extract_coherent (TStruct host) i c Hc) as Hco.
    destruct (extractAssociationData (TStruct host) i c) as [[d'|m] c1]; simpl in *;
      [|congruence].
    assert (d' = d) as -> by congruence.
    exists c1. split; [done|]. split; [by apply Hs|done].
Qed.

End HandleMore.


(** * The sample program, resolved *)

#[local] Existing Instance Sample.runtime.
#[local] Existing Instance Sample.records.

(** The two parts of a [ref] or [fk] tag: a tag with more than one colon
    keeps its first part only. *)
Example getAssocField_parts :
  getAssocField [("ref", "id:user_id")] "ref" = ("id", "user_id")
  ∧ getAssocField [("ref", "id")] "ref" = ("id", "")
  ∧ getAssocField [("ref", "id")] "fk" = ("", "")
  ∧ getAssocField [("ref", ":user_id")] "ref" = ("", "user_id")
  ∧ getAssocField [("ref", "a:b:c")] "ref" = ("a", "").
Proof. repeat split. Qed.

(** The descriptors of the fields of [User]. *)
Example resolve_user_fields :
  resolve Sample.user 2 = Ok (mkData HasOne [2] "id" 0 "" "user_id" 1 "" "" false)
  ∧ resolve Sample.user 3 = Ok (mkData HasMany [3] "id" 0 "" "user_id" 2 "" "" false)
  ∧ resolve Sample.user 4
    = Ok (mkData ManyToMany [4] "id" 0 "user_id" "id" 0 "role_id" "user_roles" false)
  ∧ resolve Sample.user 5 = Ok (mkData HasOne [5] "id" 0 "" "id" 0 "" "" false)
  ∧ resolve Sample.user 6 = Panic "reflect: Field index out of bounds".
Proof. repeat split; vm_compute; reflexivity. Qed.

(** [Office.Manager] carries [ref:"id"] alone: the inference runs, finds no
    [manager_id] and asks the target for [office_id]. *)
Example resolve_office_manager :
  resolve Sample.office 3 = Panic "rel: foreign_key (office_id) field not found".
Proof. vm_compute. reflexivity. Qed.

(** [Address.User], a pointer to a user next to a [UserID] field: belongs
    to. *)
Lemma belongs_to_inference_witness :
  (is_ok (extractAssociationData Sample.address 2 ∅).1
   ↔ is_Some (index (extractDocumentData Sample.user true) !! "id"))
  ∧ ∀ d, (extractAssociationData Sample.address 2 ∅).1 = Ok d →
         typ d = BelongsTo ∧ referenceField d = "user_id" ∧ foreignField d = "id".
Proof.
  apply (belongs_to_inference (RT := Sample.runtime) Sample.address 2
           (mkStructField "User" (TPtr Sample.user) [] [2]) ∅).
  - apply cacheCoherent_empty.
  - reflexivity.
  - reflexivity.
  - reflexivity.
  - reflexivity.
  - reflexivity.
  - vm_compute. by eexists.
Defined.

(** [User.Address], a struct in a host without [address_id]: has one. *)
Lemma has_one_fallback_witness :
  (is_ok (extractAssociationData Sample.user 2 ∅).1
   ↔ is_Some (index (extractDocumentData Sample.user true) !! "id")
     ∧ is_Some (index (extractDocumentData Sample.address true) !! "user_id"))
  ∧ ∀ d, (extractAssociationData Sample.user 2 ∅).1 = Ok d →
         typ d = HasOne ∧ referenceField d = "id" ∧ foreignField d = "user_id".
Proof.
  apply (has_one_fallback (RT := Sample.runtime) Sample.user 2
           (mkStructField "Address" Sample.address [] [2]) ∅).
  - apply cacheCoherent_empty.
  - reflexivity.
  - reflexivity.
  - reflexivity.
  - reflexivity.
  - reflexivity.
  - vm_compute. reflexivity.
Defined.

(** [User.Roles], a slice of roles with a [through] tag, resolves to a many
    to many through [user_roles]; [User.Transactions], a slice of
    transactions without, resolves to a has many. *)
Lemma many_to_many_inference_witness :
  (∃ d, (extractAssociationData Sample.user 4 ∅).1 = Ok d
        ∧ typ d = ManyToMany ∧ through d = "user_roles"
        ∧ referenceThrough d = "user_id" ∧ foreignThrough d = "role_id")
  ∧ (∃ d, (extractAssociationData Sample.user 3 ∅).1 = Ok d ∧ typ d = HasMany).
Proof.
  split.
  - destruct (many_to_many_inference (RT := Sample.runtime) Sample.user 4
                (mkStructField "Roles" (TSlice Sample.role)
                   [("through", "user_roles")] [4]) ∅ "Role")
      as [Hthrough _];
      [apply cacheCoherent_empty | reflexivity | reflexivity
      | apply wrapping_slice, wrapping_base |].
    destruct Hthrough as [Hok Hd];
      [vm_compute; discriminate | reflexivity | reflexivity |].
    apply proj2 in Hok.
    destruct ((extractAssociationData Sample.user 4 ∅).1) as [d|msg].
    + exists d. split; [reflexivity|]. apply Hd. reflexivity.
    + exfalso. apply Hok. split; vm_compute; eexists; reflexivity.
  - destruct (many_to_many_inference (RT := Sample.runtime) Sample.user 3
                (mkStructField "Transactions" (TSlice Sample.transaction) [] [3])
                ∅ "Transaction")
      as [_ Hplain];
      [apply cacheCoherent_empty | reflexivity | reflexivity
      | apply wrapping_slice, wrapping_base |].
    destruct Hplain as [Hok Hd]; [reflexivity|].
    apply proj2 in Hok.
    destruct ((extractAssociationData Sample.user 3 ∅).1) as [d|msg].
    + exists d. split; [reflexivity|]. apply Hd. reflexivity.
    + exfalso. apply Hok. split; vm_compute; eexists; reflexivity.
Defined.

(** [Office.Owner], with [ref:"missing"]: the resolution panics and names
    the key. *)
Lemma missing_field_failure_witness :
  (extractAssociationData Sample.office 4 ∅).1
  = Panic "rel: references (missing) field not found ".
Proof.
  apply (missing_field_failure (RT := Sample.runtime) Sample.office 4
           (mkStructField "Owner" (TPtr Sample.user)
              [("ref", "missing"); ("fk", "id")] [4]) ∅).
  - apply cacheCoherent_empty.
  - reflexivity.
  - vm_compute. reflexivity.
Defined.

(** After [Address.User] is resolved, and then the fields of [User], a
    program with no type declarations at all still gets the descriptor. *)
Lemma resolution_cached_witness :
  let c1 := (extractAssociationData Sample.address 2 ∅).2 in
  let keys := [mkKey Sample.user 2; mkKey Sample.user 3; mkKey Sample.user 4] in
  let blank :=
    mkRuntime (λ _, []) (λ s, s) (λ _, "") (λ _ _, mkDocumentData ∅) (λ _, "") in
  @extractAssociationData blank Sample.address 2 (@resolveAll blank keys c1)
  = (Ok (mkData BelongsTo [2] "user_id" 1 "" "id" 0 "" "" false),
     @resolveAll blank keys c1).
Proof.
  intros c1 keys blank.
  apply (proj2 (proj2 (resolution_cached (RT := Sample.runtime) Sample.address 2 ∅))).
  vm_compute. reflexivity.
Defined.

(** [User.Primary], a struct with a [through] tag: has one, and nothing of
    the through table in the descriptor. *)
Lemma through_only_many_to_many_witness :
  ∃ d, (extractAssociationData Sample.user 5 ∅).1 = Ok d
       ∧ typ d = HasOne
       ∧ through d = "" ∧ referenceThrough d = "" ∧ foreignThrough d = "".
Proof.
  exists (mkData HasOne [5] "id" 0 "" "id" 0 "" "" false).
  split; [vm_compute; reflexivity|]. split; [reflexivity|].
  apply (through_only_many_to_many (RT := Sample.runtime) Sample.user 5 ∅).
  - apply cacheCoherent_empty.
  - vm_compute. reflexivity.
  - right. left. reflexivity.
Defined.

(** [Office.User], with [fk:"name"] and no [ref]: the keys are the inferred
    [user_id] and [id], and [name] is nowhere. *)
Lemma lone_key_tag_discarded_witness :
  ∃ d, (extractAssociationData Sample.office 2 ∅).1 = Ok d
       ∧ referenceField d = "user_id" ∧ foreignField d = "id"
       ∧ (referenceThrough d = "" ∨ referenceThrough d = "office_id")
       ∧ (foreignThrough d = "" ∨ foreignThrough d = "user_id").
Proof.
  exists (mkData BelongsTo [2] "user_id" 1 "" "id" 0 "" "" false).
  split; [vm_compute; reflexivity|].
  apply (lone_key_tag_discarded (RT := Sample.runtime) Sample.office 2
           (mkStructField "User" (TPtr Sample.user) [("fk", "name")] [2]) ∅).
  - apply cacheCoherent_empty.
  - reflexivity.
  - right. split; [reflexivity | vm_compute; discriminate].
  - vm_compute. reflexivity.
Defined.

(** * The sample program, handled *)

(** The handles of the sample are those [newAssociation] builds. *)
Example sample_handles :
  Sample.handle Sample.user 0 2 = Ok Sample.annAddress
  ∧ Sample.handle Sample.user 0 3 = Ok Sample.annTransactions
  ∧ Sample.handle Sample.address 1 2 = Ok Sample.annHomeUser
  ∧ Sample.handle Sample.address 2 2 = Ok Sample.nobodyHomeUser.
Proof. repeat split; vm_compute; reflexivity. Qed.


(** C5 fails on the second address, whose user is a nil pointer: the
    handle [newAssociation] builds for it is a belongs-to, there is no
    target instance, and [ForeignValue] panics instead of returning. *)
Lemma foreign_value_counterexample :
  Sample.handle Sample.address 2 2 = Ok Sample.nobodyHomeUser
  ∧ Association_Type Sample.nobodyHomeUser = BelongsTo
  ∧ load Sample.heap (fieldAddr (mkPointer 2 []) 2) = Some (VPtr None)
  ∧ targetInstance Sample.heap (TPtr Sample.user) (fieldAddr (mkPointer 2 []) 2)
    = None
  ∧ (ForeignValue Sample.nobodyHomeUser Sample.heap).1
    = Panic "reflect: call of reflect.Value.Field on zero Value"
  ∧ is_ok (ForeignValue Sample.nobodyHomeUser Sample.heap).1 = false.
Proof. repeat split; vm_compute; reflexivity. Qed.

(** C6 fails on the second address, whose user is a nil pointer:
    [ForeignValue] and [Collection] panic on this belongs-to handle; and
    [Collection] panics on the zero-valued address of the user, a has-one
    handle. *)
Lemma singular_totality_counterexample :
  typ (data Sample.nobodyHomeUser) = BelongsTo
  ∧ load Sample.heap (fieldAddr (mkPointer 2 []) 2) = Some (VPtr None)
  ∧ (ForeignValue Sample.nobodyHomeUser Sample.heap).1
    = Panic "reflect: call of reflect.Value.Field on zero Value"
  ∧ (Collection Sample.nobodyHomeUser Sample.heap).1
    = Panic "reflect.MakeSlice of non-slice type"
  ∧ typ (data Sample.annAddress) = HasOne
  ∧ load Sample.heap (fieldAddr (mkPointer 0 []) 2)
    = Some (zeroValue Sample.address)
  ∧ (Collection Sample.annAddress Sample.heap).1
    = Panic "reflect: call of reflect.Value.IsNil on struct Value".
Proof. repeat split; vm_compute; reflexivity. Qed.

Lemma singular_handle_totality_witness :
  (is_ok (Document Sample.annAddress Sample.heap).1
   ∧ is_ok (IsZero Sample.annAddress Sample.heap).1
   ∧ is_ok (ForeignValue Sample.annAddress Sample.heap).1)
  ∧ (is_ok (Document Sample.nobodyHomeUser Sample.heap).1
     ∧ is_ok (IsZero Sample.nobodyHomeUser Sample.heap).1).
Proof.
  split.
  - destruct (singular_handle_totality Sample.annAddress Sample.heap
                "User" (mkPointer 0 []) 2
                (mkFieldDecl "Address" Sample.address []) "Address")
      as [Hplain _]; [right; reflexivity | reflexivity | reflexivity | reflexivity |].
    destruct (Hplain (zeroValue Sample.address)) as (Hd & Hz & Hf);
      [reflexivity | vm_compute; reflexivity |].
    split; [exact Hd|]. split; [exact Hz|].
    apply (Hf (mkFieldDecl "UserID" (TPtr Sample.int) []) INil);
      [reflexivity | vm_compute; reflexivity].
  - destruct (singular_handle_totality Sample.nobodyHomeUser Sample.heap
                "Address" (mkPointer 2 []) 2
                (mkFieldDecl "User" (TPtr Sample.user) []) "User")
      as [_ Hnil]; [left; reflexivity | reflexivity | reflexivity | reflexivity |].
    apply Hnil; [reflexivity | vm_compute; reflexivity].
Defined.

(** [Document] on the nil user of the second address allocates block 3 and
    reports it as not loaded; on the set user of the first address it wraps
    the user, who is persisted. *)
Lemma document_allocates_or_wraps_witness :
  (∃ h', Document Sample.nobodyHomeUser Sample.heap
         = (Ok (mkDocument Sample.user (mkPointer 3 []), false), h')
         ∧ load h' (fieldAddr (mkPointer 2 []) 2) = Some (VPtr (Some (mkPointer 3 [])))
         ∧ load h' (mkPointer 3 []) = Some (zeroValue Sample.user))
  ∧ Document Sample.annHomeUser Sample.heap
    = (Ok (mkDocument Sample.user (mkPointer 0 []), true), Sample.heap).
Proof.
  split.
  - destruct (document_allocates_or_wraps Sample.nobodyHomeUser Sample.heap
                "Address" (mkPointer 2 []) 2
                (mkFieldDecl "User" (TPtr Sample.user) []) "User")
      as [Hnil _]; [reflexivity | reflexivity | reflexivity |].
    destruct Hnil as (h' & Hd & _ & Hf & Hn); [reflexivity | vm_compute; reflexivity |].
    exists h'. split; [exact Hd|]. split; [exact Hf | exact Hn].
  - destruct (document_allocates_or_wraps Sample.annHomeUser Sample.heap
                "Address" (mkPointer 1 []) 2
                (mkFieldDecl "User" (TPtr Sample.user) []) "User")
      as (_ & Hset & _); [reflexivity | reflexivity | reflexivity |].
    apply (Hset (mkPointer 0 []) Sample.ann);
      [reflexivity | vm_compute; reflexivity | vm_compute; reflexivity].
Defined.

(** Once [Document] has allocated the user of the second address,
    [ForeignValue] reads the primary key of the new record. *)
Example foreign_value_after_document :
  (ForeignValue Sample.nobodyHomeUser
     (Document Sample.nobodyHomeUser Sample.heap).2).1
  = Ok (IVal Sample.int (VInt 0)).
Proof. vm_compute. reflexivity. Qed.

(** [Collection] on the transactions of the user, a nil slice: the slice is
    made empty and reported as not loaded; a second call finds it loaded. *)
Example collection_of_transactions :
  (Collection Sample.annTransactions Sample.heap).1
  = Ok (mkCollection (TSlice Sample.transaction) (mkPointer 0 [3]), false)
  ∧ (Collection Sample.annTransactions
       (Collection Sample.annTransactions Sample.heap).2).1
    = Ok (mkCollection (TSlice Sample.transaction) (mkPointer 0 [3]), true).
Proof. split; vm_compute; reflexivity. Qed.

(** * The sample programs and the further properties *)

Lemma getAssocField_parse_witness :
  getAssocField [("ref", "id")] "ref" = ("id", "")
  ∧ getAssocField [("ref", "id:book_id")] "ref" = ("id", "book_id")
  ∧ getAssocField [("ref", "id:book_id:x")] "ref" = ("id", "").
Proof.
  split; [|split].
  - apply (proj1 (getAssocField_parse [("ref", "id")] "ref" "id" "" eq_refl)).
    reflexivity.
  - apply (proj1 (proj2 (getAssocField_parse [("ref", "id:book_id")] "ref"
                           "id" "book_id" eq_refl))); reflexivity.
  - apply (proj2 (proj2 (getAssocField_parse [("ref", "id:book_id:x")] "ref"
                           "id" "book_id:x" eq_refl))); reflexivity.
Defined.

(** [Book.Tags] names its through keys; [Book.Labels] does not, and gets
    none. *)
Lemma explicit_keys_used_witness :
  (∃ d, (extractAssociationData (RT := Shelves.runtime) Shelves.book 3 ∅).1 = Ok d
        ∧ referenceField d = "id" ∧ foreignField d = "id"
        ∧ referenceThrough d = "book_id" ∧ foreignThrough d = "tag_id")
  ∧ (∃ d, (extractAssociationData (RT := Shelves.runtime) Shelves.book 5 ∅).1 = Ok d
          ∧ referenceField d = "id" ∧ foreignField d = "id"
          ∧ referenceThrough d = "" ∧ foreignThrough d = "").
Proof.
  split.
  - exists (mkData ManyToMany [3] "id" 0 "book_id" "id" 0 "tag_id" "book_tags" false).
    split; [vm_compute; reflexivity|].
    destruct (explicit_keys_used (RT := Shelves.runtime) Shelves.book 3
                (mkStructField "Tags" (TSlice Shelves.tag)
                   [("ref", "id:book_id"); ("fk", "id:tag_id");
                    ("through", "book_tags")] [3]) ∅)
      as [_ H];
      [apply cacheCoherent_empty | reflexivity
      | vm_compute; discriminate | vm_compute; discriminate |].
    destruct (H _ ltac:(vm_compute; reflexivity)) as (Hr & Hf & Hm).
    destruct (Hm eq_refl) as [Hrt Hft].
    split; [exact Hr|]. split; [exact Hf|]. split; [exact Hrt | exact Hft].
  - exists (mkData ManyToMany [5] "id" 0 "" "id" 0 "" "book_tags" false).
    split; [vm_compute; reflexivity|].
    destruct (explicit_keys_used (RT := Shelves.runtime) Shelves.book 5
                (mkStructField "Labels" (TSlice Shelves.tag)
                   [("ref", "id"); ("fk", "id"); ("through", "book_tags")] [5]) ∅)
      as [_ H];
      [apply cacheCoherent_empty | reflexivity
      | vm_compute; discriminate | vm_compute; discriminate |].
    destruct (H _ ltac:(vm_compute; reflexivity)) as (Hr & Hf & Hm).
    destruct (Hm eq_refl) as [Hrt Hft].
    split; [exact Hr|]. split; [exact Hf|]. split; [exact Hrt | exact Hft].
Defined.

(** [Book.Twin] has keys of equal length: a has-one. *)
Lemma cardinality_by_shape_witness :
  typ (mkData HasOne [4] "id" 0 "" "id" 0 "" "" false) = HasOne
  ↔ (String.length "id" ≤ String.length "id")%nat.
Proof.
  apply (cardinality_by_shape (RT := Shelves.runtime) Shelves.book 4
           (mkStructField "Twin" (TPtr Shelves.book) [("ref", "id"); ("fk", "id")] [4])
           ∅ (mkData HasOne [4] "id" 0 "" "id" 0 "" "" false)).
  - apply cacheCoherent_empty.
  - reflexivity.
  - vm_compute. reflexivity.
  - reflexivity.
Defined.

(** [User.Primary], a struct with a [through] tag. *)
Lemma through_on_singular_witness :
  ∃ d, (extractAssociationData Sample.user 5 ∅).1 = Ok d
       ∧ typ d = HasOne ∧ referenceField d = "id" ∧ foreignField d = "id"
       ∧ through d = "".
Proof.
  exists (mkData HasOne [5] "id" 0 "" "id" 0 "" "" false).
  split; [vm_compute; reflexivity|].
  apply (through_on_singular (RT := Sample.runtime) Sample.user 5
           (mkStructField "Primary" Sample.role [("through", "user_roles")] [5]) ∅).
  - apply cacheCoherent_empty.
  - reflexivity.
  - left. reflexivity.
  - vm_compute. discriminate.
  - reflexivity.
  - vm_compute. reflexivity.
Defined.

(** [User.Transactions] and [Shelf.Books]. *)
Lemma has_many_keys_witness :
  (∃ d, (extractAssociationData Sample.user 3 ∅).1 = Ok d
        ∧ typ d = HasMany ∧ referenceField d = "id" ∧ foreignField d = "user_id")
  ∧ (∃ d, (extractAssociationData (RT := Shelves.runtime) Shelves.shelf 1 ∅).1 = Ok d
          ∧ typ d = HasMany ∧ referenceField d = "id" ∧ foreignField d = "shelf_id").
Proof.
  split.
  - exists (mkData HasMany [3] "id" 0 "" "user_id" 2 "" "" false).
    split; [vm_compute; reflexivity|].
    destruct (has_many_keys (RT := Sample.runtime) Sample.user 3
                (mkStructField "Transactions" (TSlice Sample.transaction) [] [3]) ∅
                cacheCoherent_empty eq_refl (or_introl eq_refl) eq_refl eq_refl
                (mkData HasMany [3] "id" 0 "" "user_id" 2 "" "" false))
      as (Ht & Hno & _); [vm_compute; reflexivity|].
    destruct Hno as [Hr Hf]; [vm_compute; reflexivity|].
    split; [exact Ht|]. split; [exact Hr | exact Hf].
  - exists (mkData HasMany [1] "id" 0 "" "shelf_id" 1 "" "" false).
    split; [vm_compute; reflexivity|].
    destruct (has_many_keys (RT := Shelves.runtime) Shelves.shelf 1
                (mkStructField "Books" (TPtr (TSlice Shelves.book)) [] [1]) ∅
                cacheCoherent_empty eq_refl (or_introl eq_refl) eq_refl eq_refl
                (mkData HasMany [1] "id" 0 "" "shelf_id" 1 "" "" false))
      as (Ht & Hno & _); [vm_compute; reflexivity|].
    destruct Hno as [Hr Hf]; [vm_compute; reflexivity|].
    split; [exact Ht|]. split; [exact Hr | exact Hf].
Defined.

(** [Book.Shelf], with [autosave:"true"]. *)
Lemma descriptor_positions_witness :
  ∃ d, (extractAssociationData (RT := Shelves.runtime) Shelves.book 2 ∅).1 = Ok d
       ∧ targetIndex d = [2]
       ∧ index (Shelves.docData Shelves.book true) !! referenceField d
         = Some (referenceIndex d)
       ∧ index (Shelves.docData Shelves.shelf true) !! foreignField d
         = Some (foreignIndex d)
       ∧ autosave d = true.
Proof.
  exists (mkData BelongsTo [2] "shelf_id" 1 "" "id" 0 "" "" true).
  split; [vm_compute; reflexivity|].
  apply (descriptor_positions (RT := Shelves.runtime) Shelves.book 2
           (mkStructField "Shelf" (TPtr Shelves.shelf)
              [("ref", "shelf_id"); ("fk", "id"); ("autosave", "true")] [2]) ∅).
  - apply cacheCoherent_empty.
  - reflexivity.
  - vm_compute. reflexivity.
Defined.

(** [User] has six fields; [int], a pointer to a user and a slice of users
    are no structs. *)
Lemma invalid_position_witness :
  extractAssociationData Sample.user 6 ∅
  = (Panic "reflect: Field index out of bounds", ∅)
  ∧ extractAssociationData Sample.int 0 ∅
    = (Panic "reflect: Field of non-struct type int", ∅)
  ∧ extractAssociationData (TPtr Sample.user) 0 ∅
    = (Panic "reflect: Field of non-struct type *rel.User", ∅)
  ∧ extractAssociationData (TSlice Sample.user) 0 ∅
    = (Panic "reflect: Field of non-struct type []rel.User", ∅).
Proof.
  split; [|split; [|split]].
  - apply (proj1 (invalid_position (RT := Sample.runtime) Sample.user 6 ∅
                    cacheCoherent_empty) "User" eq_refl).
    vm_compute. lia.
  - apply (proj2 (invalid_position (RT := Sample.runtime) Sample.int 0 ∅
                    cacheCoherent_empty)).
    discriminate.
  - apply (proj2 (invalid_position (RT := Sample.runtime) (TPtr Sample.user) 0 ∅
                    cacheCoherent_empty)).
    discriminate.
  - apply (proj2 (invalid_position (RT := Sample.runtime) (TSlice Sample.user) 0 ∅
                    cacheCoherent_empty)).
    discriminate.
Defined.

(** The transactions of the user: a nil slice made empty in place. *)
Lemma collection_of_slice_witness :
  ∃ h', Collection Sample.annTransactions Sample.heap
        = (Ok (mkCollection (TSlice Sample.transaction) (mkPointer 0 [3]), false), h')
        ∧ load h' (mkPointer 0 [3]) = Some (VSlice (Some []))
        ∧ Collection Sample.annTransactions h'
          = (Ok (mkCollection (TSlice Sample.transaction) (mkPointer 0 [3]), true), h').
Proof.
  destruct (collection_of_slice Sample.annTransactions Sample.heap
              "User" (mkPointer 0 []) 3
              (mkFieldDecl "Transactions" (TSlice Sample.transaction) [])
              Sample.transaction)
    as [Hnil _]; [reflexivity | reflexivity | reflexivity | reflexivity |].
  destruct Hnil as (h' & Hc & _ & Hl & Hc'); [vm_compute; reflexivity|].
  exists h'. split; [exact Hc|]. split; [exact Hl | exact Hc'].
Defined.

(** The books of the shelf: a nil pointer to a slice gets block 1. *)
Lemma collection_of_slice_pointer_witness :
  ∃ h', Collection (RT := Shelves.runtime) (RC := Shelves.records)
          Shelves.shelfBooks Shelves.heap
        = (Ok (mkCollection (TSlice Shelves.book) (mkPointer 1 []), false), h')
        ∧ load h' (mkPointer 0 [1]) = Some (VPtr (Some (mkPointer 1 [])))
        ∧ load h' (mkPointer 1 []) = Some (VSlice (Some [])).
Proof.
  destruct (collection_of_slice_pointer (RT := Shelves.runtime)
              (RC := Shelves.records) Shelves.shelfBooks Shelves.heap
              "Shelf" (mkPointer 0 []) 1
              (mkFieldDecl "Books" (TPtr (TSlice Shelves.book)) [])
              Shelves.book)
    as [Hnil _]; [reflexivity | reflexivity | reflexivity | reflexivity |].
  destruct Hnil as (h' & Hc & Hf & Hl & _); [vm_compute; reflexivity|].
  exists h'. split; [exact Hc|]. split; [exact Hf | exact Hl].
Defined.

(** Allocating the user of the second address leaves the first address,
    and the other fields of the second, as they are. *)
Lemma document_frame_witness :
  load (Document Sample.nobodyHomeUser Sample.heap).2 (mkPointer 1 [])
  = Some Sample.annHome
  ∧ load (Document Sample.nobodyHomeUser Sample.heap).2 (mkPointer 2 [0])
    = Some (VInt 6)
  ∧ dom (Document Sample.nobodyHomeUser Sample.heap).2 = {[3]} ∪ dom Sample.heap.
Proof.
  destruct (document_frame Sample.nobodyHomeUser Sample.heap
              "Address" (mkPointer 2 []) 2
              (mkFieldDecl "User" (TPtr Sample.user) []) "User")
    as (Hblocks & Hfields & Hdom);
    [reflexivity | reflexivity | reflexivity | reflexivity
    | vm_compute; reflexivity |].
  split; [|split].
  - rewrite (Hblocks (mkPointer 1 [])); [vm_compute; reflexivity | | ];
      vm_compute; discriminate.
  - etransitivity; [apply (Hfields 0); discriminate | vm_compute; reflexivity].
  - exact Hdom.
Defined.

Lemma document_twice_witness :
  ∃ doc h',
    Document Sample.nobodyHomeUser Sample.heap = (Ok (doc, false), h')
    ∧ Document Sample.nobodyHomeUser h' = (Ok (doc, false), h').
Proof.
  destruct (document_twice Sample.nobodyHomeUser Sample.heap
              "Address" (mkPointer 2 []) 2
              (mkFieldDecl "User" (TPtr Sample.user) []) "User")
    as (doc & h' & H1 & H2);
    [reflexivity | reflexivity | reflexivity | reflexivity
    | vm_compute; reflexivity |].
  exists doc, h'. split; [exact H1 | exact H2].
Defined.

Lemma foreign_value_of_allocated_witness :
  ForeignValue Sample.nobodyHomeUser (Document Sample.nobodyHomeUser Sample.heap).2
  = (Ok (IVal Sample.int (VInt 0)), (Document Sample.nobodyHomeUser Sample.heap).2).
Proof.
  apply (foreign_value_of_allocated Sample.nobodyHomeUser Sample.heap
           "Address" (mkPointer 2 []) 2
           (mkFieldDecl "User" (TPtr Sample.user) []) "User"
           (mkFieldDecl "ID" Sample.int []) BInt (VInt 0)).
  - left. reflexivity.
  - reflexivity.
  - reflexivity.
  - reflexivity.
  - reflexivity.
  - vm_compute. reflexivity.
  - reflexivity.
  - reflexivity.
  - reflexivity.
Defined.

(** The reference value of the user of the first address is its [UserID],
    a pointer to the primary key of the user. *)
Lemma reference_value_witness :
  ReferenceValue Sample.annHomeUser Sample.heap
  = (Ok (IVal Sample.int (VInt 2)), Sample.heap)
  ∧ ReferenceValue Sample.nobodyHomeUser Sample.heap = (Ok INil, Sample.heap).
Proof.
  split.
  - destruct (reference_value Sample.annHomeUser Sample.heap
                "Address" (mkPointer 1 [])) as [H _]; [reflexivity|].
    apply (H (mkFieldDecl "UserID" (TPtr Sample.int) []));
      [reflexivity | vm_compute; reflexivity].
  - destruct (reference_value Sample.nobodyHomeUser Sample.heap
                "Address" (mkPointer 2 [])) as [H _]; [reflexivity|].
    apply (H (mkFieldDecl "UserID" (TPtr Sample.int) []));
      [reflexivity | vm_compute; reflexivity].
Defined.

Lemma is_zero_argument_witness :
  IsZero Sample.nobodyHomeUser Sample.heap
  = (Ok (isDeepZero Sample.heap Invalid 1), Sample.heap)
  ∧ IsZero Sample.annHomeUser Sample.heap
    = (Ok (isDeepZero Sample.heap (Place Sample.user (mkPointer 0 [])) 1),
       Sample.heap)
  ∧ IsZero Sample.annAddress Sample.heap
    = (Ok (isDeepZero Sample.heap (Place Sample.address (mkPointer 0 [2])) 1),
       Sample.heap).
Proof.
  split; [|split].
  - destruct (is_zero_argument Sample.nobodyHomeUser Sample.heap
                "Address" (mkPointer 2 []) 2
                (mkFieldDecl "User" (TPtr Sample.user) []))
      as (H & _ & _); [reflexivity | reflexivity | reflexivity |].
    apply (H Sample.user); [reflexivity | vm_compute; reflexivity].
  - destruct (is_zero_argument Sample.annHomeUser Sample.heap
                "Address" (mkPointer 1 []) 2
                (mkFieldDecl "User" (TPtr Sample.user) []))
      as (_ & H & _); [reflexivity | reflexivity | reflexivity |].
    apply (H Sample.user); [reflexivity | vm_compute; reflexivity].
  - destruct (is_zero_argument Sample.annAddress Sample.heap
                "User" (mkPointer 0 []) 2
                (mkFieldDecl "Address" Sample.address []))
      as (_ & _ & H); [reflexivity | reflexivity | reflexivity |].
    apply H. discriminate.
Defined.

Lemma foreign_value_of_sequence_witness :
  ForeignValue Sample.annTransactions Sample.heap
  = (Panic "cannot infer foreign value for has many or many to many association",
     Sample.heap)
  ∧ (Association_Type Sample.annAddress = BelongsTo
     ∨ Association_Type Sample.annAddress = HasOne).
Proof.
  split.
  - destruct (foreign_value_of_sequence (RT := Sample.runtime)
                "User" (mkPointer 0 []) 3
                (mkStructField "Transactions" (TSlice Sample.transaction) [] [3])
                Sample.heap ∅
                (<[mkKey Sample.user 3 := data Sample.annTransactions]> ∅)
                Sample.annTransactions)
      as [H _]; [apply cacheCoherent_empty | reflexivity | vm_compute; reflexivity |].
    apply H. reflexivity.
  - destruct (foreign_value_of_sequence (RT := Sample.runtime)
                "User" (mkPointer 0 []) 2
                (mkStructField "Address" Sample.address [] [2])
                Sample.heap ∅
                (<[mkKey Sample.user 2 := data Sample.annAddress]> ∅)
                Sample.annAddress)
      as [_ H]; [apply cacheCoherent_empty | reflexivity | vm_compute; reflexivity |].
    apply H. reflexivity.
Defined.

Lemma handle_construction_witness :
  newAssociation (Sample.valueOfPtr Sample.user 0) 2 Sample.heap ∅
  = newAssociation (Place Sample.user (mkPointer 0 [])) 2 Sample.heap ∅
  ∧ newAssociation (Const (TPtr Sample.user) (VPtr None)) 2 Sample.heap ∅
    = (Panic "reflect: call of reflect.Value.Type on zero Value", ∅)
  ∧ newAssociation (Place Sample.user (mkPointer 0 [])) 6 Sample.heap ∅
    = (Panic "reflect: Field index out of bounds", ∅).
Proof.
  split; [|split].
  - destruct (handle_construction (RT := Sample.runtime)
                "User" (mkPointer 0 []) 2 Sample.heap ∅ cacheCoherent_empty)
      as (H & _). exact H.
  - destruct (handle_construction (RT := Sample.runtime)
                "User" (mkPointer 0 []) 2 Sample.heap ∅ cacheCoherent_empty)
      as (_ & H & _). apply (H Sample.user).
  - destruct (handle_construction (RT := Sample.runtime)
                "User" (mkPointer 0 []) 6 Sample.heap ∅ cacheCoherent_empty)
      as (_ & _ & H & _). apply H. vm_compute. reflexivity.
Defined.
